(** * VibeCoding: the voice session controller and its completion gateway

    A shallow embedding of the browser application [app.js] (class
    [VoiceCortexApp]) and of the Express server that relays prompts to
    Snowflake Cortex, followed by the properties of the session state
    machine, the prompt assembly, the settings validation and the
    connection pool.

    - [JS]: the string and array primitives the program calls.
    - [Api]: the JSON bodies exchanged between the page and the server.
    - [Snowflake], [Server]: the route [POST /api/cortex-agent] and its
      connection pool; the Snowflake service is a parameter.
    - [App]: the fields and methods of [VoiceCortexApp], the events the page
      reacts to, and the states it can reach.
    - [System]: the page and the server together.
    - [Scenario]: concrete sessions.

    JavaScript objects mutated through [this] are modelled by explicit state
    passing: a method is a function from the application state to the
    application state.  An [await] splits a method in two: the part that runs
    up to the suspension and the part that runs when the promise settles.
    The browser (speech recognition, network) and the Snowflake service are
    the environment: their events are inputs of the model. *)

From Stdlib Require Import ZArith Ascii String Lia.
From stdpp Require Import gmap strings list fin_maps pretty.

Local Open Scope Z_scope.

(** ** JavaScript values and string primitives *)

Module JS.

(** The values that reach the message texts of this program: a string, or
    [undefined] / [null] when a JSON field is absent or null. *)
Inductive value :=
| Undefined
| Null
| Str (s : string).

(** Truthiness of a string: only the empty string is falsy. *)
Definition truthy_str (s : string) : bool :=
  match s with
  | EmptyString => false
  | String _ _ => true
  end.

Definition truthy (v : value) : bool :=
  match v with
  | Str s => truthy_str s
  | Undefined | Null => false
  end.

(** [a && b] and [a || b] on strings return one of their operands. *)
Definition and_ (a b : string) : string := if truthy_str a then b else a.
Definition or_ (a b : string) : string := if truthy_str a then a else b.

(** [v || d] where [d] is a string and the result is used as a string. *)
Definition or_default (v : value) (d : string) : string :=
  match v with
  | Str s => or_ s d
  | Undefined | Null => d
  end.

(** Conversion of a value inside a template literal. *)
Definition template (v : value) : string :=
  match v with
  | Undefined => "undefined"
  | Null => "null"
  | Str s => s
  end.

(** The line feed written ['\n'] in the source. *)
Definition nl : string := String "010"%char EmptyString.

(** White space and line terminators removed by [String.prototype.trim].
    A character stands for one code unit below 256: TAB, LF, VT, FF, CR,
    SPACE and NO-BREAK SPACE. *)
Definition is_ws (c : ascii) : bool :=
  let n := N_of_ascii c in
  ((9 <=? n) && (n <=? 13) || (n =? 32) || (n =? 160))%N.

Fixpoint trimStart (s : string) : string :=
  match s with
  | EmptyString => EmptyString
  | String c r => if is_ws c then trimStart r else s
  end.

Fixpoint trimEnd (s : string) : string :=
  match s with
  | EmptyString => EmptyString
  | String c r =>
      match trimEnd r with
      | EmptyString => if is_ws c then EmptyString else String c EmptyString
      | r' => String c r'
      end
  end.

Definition trim (s : string) : string := trimEnd (trimStart s).

(** [Array.prototype.join] on an array of strings. *)
Definition join (sep : string) (parts : list string) : string :=
  String.concat sep parts.

(** [Array.prototype.slice(start)]: a negative [start] counts from the
    end, and the bounds are clamped to the array. *)
Definition slice {A} (start : Z) (xs : list A) : list A :=
  let len := Z.of_nat (length xs) in
  let k := if start <? 0 then Z.max (len + start) 0 else Z.min start len in
  drop (Z.to_nat k) xs.

End JS.

(** ** The JSON exchanged between the page and the server *)

Module Api.

(** One entry of [this.conversation], as pushed by [addMessage]. *)
Record Message := {
  role : string;
  content : JS.value;
  timestamp : Z
}.

(** Body of [POST /api/cortex-agent].  A field that is absent from the
    body reads as [undefined] on the server; for the string fields the
    server only tests truthiness or applies [||], for which the empty
    string behaves as [undefined], so they are strings here.  The
    [conversation] array can be absent. *)
Record Request := {
  account : string;
  username : string;
  password : string;
  warehouse : string;
  database : string;
  schema : string;
  agent : string;
  message : string;
  conversation : option (list Message)
}.

(** The fields of a JSON response body that either side reads or writes
    ([success] and the ISO [timestamp] of the server are never read). *)
Record Body := {
  body_error : JS.value;
  body_message : JS.value;
  body_response : JS.value
}.

End Api.

(** ** The Snowflake client library, as far as the server uses it *)

Module Snowflake.

(** Options passed to [snowflake.createConnection]. *)
Record Config := {
  account : string;
  username : string;
  password : string;
  warehouse : string;
  database : string;
  schema : string
}.

(** A connection object remembers the options it was created with. *)
Record Connection := { options : Config }.

(** A result row of [SELECT ... AS response]. *)
Record Row := { RESPONSE : JS.value }.

End Snowflake.

(** ** The Express server

    The repository holds two versions of the server.  They share
    [getSnowflakeConnection] and [executeQuery]; the route below is the one
    of the later version, which assembles the prompt from the
    conversation. *)

Module Server.

(** What the route sends back: [res.status(...).json(...)]. *)
Record Reply := {
  status : Z;
  body : Api.Body
}.

Definition json_error (code : Z) (error : string) (message : JS.value) : Reply :=
  {| status := code;
     body := {| Api.body_error := JS.Str error;
                Api.body_message := message;
                Api.body_response := JS.Undefined |} |}.

Definition json_success (response : JS.value) : Reply :=
  {| status := 200;
     body := {| Api.body_error := JS.Undefined;
                Api.body_message := JS.Undefined;
                Api.body_response := response |} |}.

(** [const key = `${config.account}-${config.username}`] *)
Definition pool_key (config : Snowflake.Config) : string :=
  Snowflake.account config +:+ "-" +:+ Snowflake.username config.

(** The rendering of one history entry in the prompt. *)
Definition render (msg : Api.Message) : string :=
  (if String.eqb (Api.role msg) "user" then "User" else "Assistant")
    +:+ ": " +:+ JS.template (Api.content msg).

(** [fullPrompt] of the [/api/cortex-agent] route. *)
Definition fullPrompt (conversation : option (list Api.Message)) (message : string)
  : string :=
  match conversation with
  | Some ((_ :: _) as history) =>
      let recentHistory := JS.join JS.nl (render <$> JS.slice (-5) history) in
      "Previous conversation:" +:+ JS.nl +:+ recentHistory +:+ JS.nl +:+ JS.nl
        +:+ "User: " +:+ message +:+ JS.nl +:+ JS.nl +:+ "Assistant:"
  | Some [] | None => message
  end.

(** [result && result[0] ? result[0].RESPONSE : 'No response from agent'] *)
Definition extractResponse (result : option (list Snowflake.Row)) : JS.value :=
  match result with
  | Some (row :: _) => Snowflake.RESPONSE row
  | Some [] | None => JS.Str "No response from agent"
  end.

(** The statement of the route, up to the white space around it. *)
Definition query : string := "SELECT SNOWFLAKE.CORTEX.COMPLETE(?, ?) AS response".

(** [!account || !username || !password || !agent || !message] *)
Definition missing_fields (req : Api.Request) : bool :=
  negb (JS.truthy_str (Api.account req))
  || negb (JS.truthy_str (Api.username req))
  || negb (JS.truthy_str (Api.password req))
  || negb (JS.truthy_str (Api.agent req))
  || negb (JS.truthy_str (Api.message req)).

(** The object literal passed to [getSnowflakeConnection] by the route. *)
Definition connection_options (req : Api.Request) : Snowflake.Config :=
  {| Snowflake.account := Api.account req;
     Snowflake.username := Api.username req;
     Snowflake.password := Api.password req;
     Snowflake.warehouse := JS.or_ (Api.warehouse req) "COMPUTE_WH";
     Snowflake.database := JS.or_ (Api.database req) "CORTEX_DB";
     Snowflake.schema := JS.or_ (Api.schema req) "AGENTS" |}.

Section Backend.

(** The Snowflake service is outside the program.  [connect] is the outcome
    of [connection.connect] for given options ([None]: connected, [Some err]:
    the error message); [execute] is the outcome of [connection.execute] for
    a statement and its binds ([inl err]: the error message, [inr rows]: the
    rows, which the driver can leave undefined). *)
Variable connect : Snowflake.Config -> option string.
Variable execute :
  Snowflake.Connection -> string -> list string ->
  string + option (list Snowflake.Row).

(** [getSnowflakeConnection]: the pool is the module-level [Map]; the
    promise resolves with a connection or rejects with an error.  The call
    and the callback of [connect] are taken in one step here, which is what
    happens when no other call comes in between; [Overlap] below keeps them
    apart. *)
Definition getSnowflakeConnection
    (connectionPool : gmap string Snowflake.Connection)
    (config : Snowflake.Config)
  : gmap string Snowflake.Connection * (string + Snowflake.Connection) :=
  let key := pool_key config in
  match connectionPool !! key with
  | Some cached => (connectionPool, inr cached)
  | None =>
      let connection := {| Snowflake.options := config |} in
      match connect config with
      | Some err => (connectionPool, inl err)
      | None => (<[key := connection]> connectionPool, inr connection)
      end
  end.

Definition executeQuery (connection : Snowflake.Connection) (sqlText : string)
    (binds : list string) : string + option (list Snowflake.Row) :=
  execute connection sqlText binds.

(** The second half of the route, from the prompt to the reply, over the
    connection it obtained. *)
Definition complete (connection : Snowflake.Connection) (req : Api.Request)
  : Reply :=
  let prompt := fullPrompt (Api.conversation req) (Api.message req) in
  match executeQuery connection query [Api.agent req; prompt] with
  | inl err => json_error 500 "Internal server error" (JS.Str err)
  | inr result => json_success (extractResponse result)
  end.

(** [app.post('/api/cortex-agent', ...)] *)
Definition cortex_agent
    (connectionPool : gmap string Snowflake.Connection) (req : Api.Request)
  : gmap string Snowflake.Connection * Reply :=
  if missing_fields req
  then (connectionPool, json_error 400 "Missing required fields" JS.Undefined)
  else
    match getSnowflakeConnection connectionPool (connection_options req) with
    | (pool', inl err) =>
        (pool', json_error 500 "Internal server error" (JS.Str err))
    | (pool', inr connection) => (pool', complete connection req)
    end.

End Backend.

End Server.

(** ** The page: class [VoiceCortexApp] *)

Module App.

(** [this.settings], also the values of the inputs of the settings form. *)
Record Settings := {
  account : string;
  username : string;
  password : string;
  warehouse : string;
  database : string;
  schema : string;
  agent : string;
  language : string
}.

(** The browser's [SpeechRecognition] object.  [started] holds from a call
    of [start()] until the [end] event; while it holds, [start()] throws
    [InvalidStateError] and the object delivers its events.  [stopRequested]
    records a call of [stop()]. *)
Record SpeechRecognition := {
  lang : string;
  started : bool;
  stopRequested : bool
}.

(** The argument of [updateUI]. *)
Inductive UIState := ui_listening | ui_processing | ui_ready.

(** The toast on the page; [showToast] replaces the one before it. *)
Record Toast := {
  toast_message : string;
  toast_type : string
}.

(** What a suspended [handleFinalTranscript] waits for: the promise of
    [sendToCortexAgent], already rejected by its own validation, or the
    [fetch] it started with the given body. *)
Inductive Awaited :=
| Rejected (error : string)
| Fetching (request : Api.Request).

(** What the network delivers for a [fetch]: a rejection, or a response
    with its status and the outcome of [response.json()] ([inl]: the body
    does not parse, with the error message). *)
Inductive FetchOutcome :=
| NetworkError (error : string)
| Response (status : Z) (json : string + Api.Body).

(** The fields of the object that take part in the conversation loop.  The
    canvas, the audio graph and the message list of the DOM are left out;
    [inflight] holds the suspended calls of [handleFinalTranscript] and
    [fetchLog] the body of every [fetch] issued so far. *)
Record VoiceCortexApp := {
  recognition : option SpeechRecognition;
  isListening : bool;
  isProcessing : bool;
  conversation : list Api.Message;
  settings : Settings;
  uiState : UIState;
  toast : option Toast;
  settingsModal : bool;
  inflight : list Awaited;
  fetchLog : list Api.Request
}.

Definition set_recognition (r : option SpeechRecognition) (this : VoiceCortexApp) :=
  {| recognition := r; isListening := isListening this;
     isProcessing := isProcessing this; conversation := conversation this;
     settings := settings this; uiState := uiState this; toast := toast this;
     settingsModal := settingsModal this; inflight := inflight this;
     fetchLog := fetchLog this |}.

Definition set_isListening (b : bool) (this : VoiceCortexApp) :=
  {| recognition := recognition this; isListening := b;
     isProcessing := isProcessing this; conversation := conversation this;
     settings := settings this; uiState := uiState this; toast := toast this;
     settingsModal := settingsModal this; inflight := inflight this;
     fetchLog := fetchLog this |}.

Definition set_isProcessing (b : bool) (this : VoiceCortexApp) :=
  {| recognition := recognition this; isListening := isListening this;
     isProcessing := b; conversation := conversation this;
     settings := settings this; uiState := uiState this; toast := toast this;
     settingsModal := settingsModal this; inflight := inflight this;
     fetchLog := fetchLog this |}.

Definition set_conversation (c : list Api.Message) (this : VoiceCortexApp) :=
  {| recognition := recognition this; isListening := isListening this;
     isProcessing := isProcessing this; conversation := c;
     settings := settings this; uiState := uiState this; toast := toast this;
     settingsModal := settingsModal this; inflight := inflight this;
     fetchLog := fetchLog this |}.

Definition set_settings (v : Settings) (this : VoiceCortexApp) :=
  {| recognition := recognition this; isListening := isListening this;
     isProcessing := isProcessing this; conversation := conversation this;
     settings := v; uiState := uiState this; toast := toast this;
     settingsModal := settingsModal this; inflight := inflight this;
     fetchLog := fetchLog this |}.

Definition set_uiState (u : UIState) (this : VoiceCortexApp) :=
  {| recognition := recognition this; isListening := isListening this;
     isProcessing := isProcessing this; conversation := conversation this;
     settings := settings this; uiState := u; toast := toast this;
     settingsModal := settingsModal this; inflight := inflight this;
     fetchLog := fetchLog this |}.

Definition set_toast (t : option Toast) (this : VoiceCortexApp) :=
  {| recognition := recognition this; isListening := isListening this;
     isProcessing := isProcessing this; conversation := conversation this;
     settings := settings this; uiState := uiState this; toast := t;
     settingsModal := settingsModal this; inflight := inflight this;
     fetchLog := fetchLog this |}.

Definition set_settingsModal (b : bool) (this : VoiceCortexApp) :=
  {| recognition := recognition this; isListening := isListening this;
     isProcessing := isProcessing this; conversation := conversation this;
     settings := settings this; uiState := uiState this; toast := toast this;
     settingsModal := b; inflight := inflight this;
     fetchLog := fetchLog this |}.

Definition set_inflight (l : list Awaited) (this : VoiceCortexApp) :=
  {| recognition := recognition this; isListening := isListening this;
     isProcessing := isProcessing this; conversation := conversation this;
     settings := settings this; uiState := uiState this; toast := toast this;
     settingsModal := settingsModal this; inflight := l;
     fetchLog := fetchLog this |}.

Definition set_fetchLog (l : list Api.Request) (this : VoiceCortexApp) :=
  {| recognition := recognition this; isListening := isListening this;
     isProcessing := isProcessing this; conversation := conversation this;
     settings := settings this; uiState := uiState this; toast := toast this;
     settingsModal := settingsModal this; inflight := inflight this;
     fetchLog := l |}.

Definition set_lang (l : string) (r : SpeechRecognition) : SpeechRecognition :=
  {| lang := l; started := started r; stopRequested := stopRequested r |}.

(** *** Toasts and the settings dialog *)

Definition showToast (message type : string) (this : VoiceCortexApp) :=
  set_toast (Some {| toast_message := message; toast_type := type |}) this.

Definition showError (message : string) := showToast message "error".
Definition showSuccess (message : string) := showToast message "success".

Definition openSettings := set_settingsModal true.
Definition closeSettingsModal := set_settingsModal false.

(** *** Settings *)

Definition defaultSettings : Settings :=
  {| account := ""; username := ""; password := "";
     warehouse := "COMPUTE_WH"; database := "CORTEX_DB"; schema := "AGENTS";
     agent := "MY_AGENT"; language := "en-US" |}.

(** [loadSettings]: [saved] is the record parsed from local storage, [None]
    when the key is absent or does not parse. *)
Definition loadSettings (saved : option Settings) : Settings :=
  match saved with
  | Some s => s
  | None => defaultSettings
  end.

(** [validateSettings] returns the value of
    [settings.account && settings.username && settings.agent]. *)
Definition validateSettings (this : VoiceCortexApp) : string :=
  JS.and_ (JS.and_ (account (settings this)) (username (settings this)))
          (agent (settings this)).

(** The object [saveSettingsData] builds from the current values of the
    form. *)
Definition form_settings (inputs : Settings) : Settings :=
  {| account := JS.trim (account inputs);
     username := JS.trim (username inputs);
     password := password inputs;
     warehouse := JS.or_ (JS.trim (warehouse inputs)) "COMPUTE_WH";
     database := JS.or_ (JS.trim (database inputs)) "CORTEX_DB";
     schema := JS.or_ (JS.trim (schema inputs)) "AGENTS";
     agent := JS.or_ (JS.trim (agent inputs)) "MY_AGENT";
     language := language inputs |}.

(** [saveSettingsData]: [inputs] are the current values of the form.  The
    copy written to local storage is only read by the next page load. *)
Definition saveSettingsData (inputs : Settings) (this : VoiceCortexApp) :=
  let saved := form_settings inputs in
  let this1 := set_settings saved this in
  let this2 :=
    match recognition this1 with
    | Some r => set_recognition (Some (set_lang (language saved) r)) this1
    | None => this1
    end in
  showSuccess "Settings saved successfully!" (closeSettingsModal this2).

(** *** Capture control *)

Definition updateUI (state : UIState) := set_uiState state.

(** [recognition.start()] inside the [try] of [startListening]: on an object
    that is already started the call throws and the [catch] only logs. *)
Definition recognition_start (r : SpeechRecognition) : SpeechRecognition :=
  if started r then r
  else {| lang := lang r; started := true; stopRequested := false |}.

(** [recognition.stop()]: ignored by an object that is not started. *)
Definition recognition_stop (r : SpeechRecognition) : SpeechRecognition :=
  if started r
  then {| lang := lang r; started := true; stopRequested := true |}
  else r.

Definition startListening (this : VoiceCortexApp) : VoiceCortexApp :=
  match recognition this with
  | None => showError "Speech recognition is not available" this
  | Some r =>
      if negb (JS.truthy_str (validateSettings this)) then
        openSettings
          (showError "Please configure your Snowflake settings first" this)
      else
        let r1 := set_lang (JS.or_ (language (settings this)) "en-US") r in
        set_recognition (Some (recognition_start r1)) this
  end.

Definition stopListening (this : VoiceCortexApp) : VoiceCortexApp :=
  match recognition this with
  | Some r =>
      if isListening this
      then set_recognition (Some (recognition_stop r)) this
      else this
  | None => this
  end.

Definition toggleListening (this : VoiceCortexApp) : VoiceCortexApp :=
  if isListening this then stopListening this else startListening this.

(** *** The conversation *)

(** [addMessage]: [now] is the reading of [Date.now()]. *)
Definition addMessage (type : string) (text : JS.value) (now : Z)
    (this : VoiceCortexApp) : VoiceCortexApp :=
  set_conversation
    (conversation this
       ++ [{| Api.role := type; Api.content := text; Api.timestamp := now |}])
    this.

Definition clearConversation (confirmed : bool) (this : VoiceCortexApp)
  : VoiceCortexApp :=
  if confirmed then set_conversation [] this else this.

(** *** Dispatch *)

Definition incomplete : string :=
  "Snowflake configuration incomplete. Please check your settings.".

Definition apology : string :=
  "Sorry, I encountered an error processing your request. Please check your Snowflake configuration.".

(** The object given to [JSON.stringify] for the body of the [fetch]. *)
Definition request_body (s : Settings) (message : string)
    (conversation : list Api.Message) : Api.Request :=
  {| Api.account := account s;
     Api.username := username s;
     Api.password := password s;
     Api.warehouse := warehouse s;
     Api.database := database s;
     Api.schema := schema s;
     Api.agent := agent s;
     Api.message := message;
     Api.conversation := Some conversation |}.

(** [sendToCortexAgent] up to its first suspension: either the validation
    throws, or [fetch] is called with the JSON of the settings, the message
    and the conversation as they are at that moment. *)
Definition sendToCortexAgent (message : string) (this : VoiceCortexApp)
  : VoiceCortexApp * Awaited :=
  let s := settings this in
  if negb (JS.truthy_str (account s))
     || negb (JS.truthy_str (username s))
     || negb (JS.truthy_str (agent s))
  then (this, Rejected incomplete)
  else
    let request := request_body s message (conversation this) in
    (set_fetchLog (fetchLog this ++ [request]) this, Fetching request).

(** [response.ok] *)
Definition ok (status : Z) : bool := (200 <=? status) && (status <=? 299).

(** The rest of [sendToCortexAgent], once the [fetch] has settled: the
    error message it throws ([inl]) or the value of [data.response] it
    returns ([inr]). *)
Definition sendToCortexAgent_settled (outcome : FetchOutcome)
  : string + JS.value :=
  match outcome with
  | NetworkError error => inl error
  | Response status json =>
      if negb (ok status) then
        let errorData_message :=
          match json with
          | inr data => Api.body_message data
          | inl _ => JS.Undefined
          end in
        inl (JS.or_default errorData_message ("API error: " +:+ pretty status))
      else
        match json with
        | inl error => inl error
        | inr data => inr (Api.body_response data)
        end
  end.

(** The three ways a call of the gateway fails: the network rejects the
    [fetch], the status is not 2xx, or the body does not parse. *)
Definition gateway_failure (outcome : FetchOutcome) : bool :=
  match outcome with
  | NetworkError _ => true
  | Response status json =>
      negb (ok status)
      || match json with
         | inl _ => true
         | inr _ => false
         end
  end.

(** What the [await] in [handleFinalTranscript] yields. *)
Definition awaited_result (a : Awaited) (outcome : FetchOutcome)
  : string + JS.value :=
  match a with
  | Rejected error => inl error
  | Fetching _ => sendToCortexAgent_settled outcome
  end.

(** [handleFinalTranscript] up to its [await].  When [sendToCortexAgent]
    rejects before any [fetch], the code resumes in the same task; here the
    rejection waits in [inflight] like a pending [fetch], so the states in
    between are additional ones. *)
Definition handleFinalTranscript (transcript : string) (now : Z)
    (this : VoiceCortexApp) : VoiceCortexApp :=
  if negb (JS.truthy_str (JS.trim transcript)) then this
  else
    let this1 := stopListening this in
    let this2 := set_isProcessing true this1 in
    let this3 := updateUI ui_processing this2 in
    let this4 := addMessage "user" (JS.Str transcript) now this3 in
    let (this5, awaited) := sendToCortexAgent transcript this4 in
    set_inflight (inflight this5 ++ [awaited]) this5.

(** [handleFinalTranscript] from its [await] on: the [try] continues or the
    [catch] runs, then the [finally]. *)
Definition handleFinalTranscript_resume (result : string + JS.value) (now : Z)
    (this : VoiceCortexApp) : VoiceCortexApp :=
  let this1 :=
    match result with
    | inr response => addMessage "agent" response now this
    | inl error_message =>
        addMessage "agent" (JS.Str apology) now
          (showError
             ("Error communicating with Cortex Agent: " +:+ error_message)
             this)
    end in
  updateUI ui_ready (set_isProcessing false this1).

(** *** Events of the recognition object *)

Definition onstart (this : VoiceCortexApp) : VoiceCortexApp :=
  updateUI ui_listening (set_isListening true this).

(** The loop of [onresult] over [event.results] from [event.resultIndex]:
    each result is its first alternative's transcript and its [isFinal].
    The interim transcript only goes to the transcript line of the page. *)
Fixpoint transcripts (results : list (string * bool)) (interim final : string)
  : string * string :=
  match results with
  | [] => (interim, final)
  | (transcript, isFinal) :: rest =>
      if isFinal
      then transcripts rest interim (final +:+ transcript)
      else transcripts rest (interim +:+ transcript) final
  end.

Definition onresult (results : list (string * bool)) (now : Z)
    (this : VoiceCortexApp) : VoiceCortexApp :=
  let (interimTranscript, finalTranscript) := transcripts results "" "" in
  if JS.truthy_str finalTranscript
  then handleFinalTranscript finalTranscript now this
  else this.

Definition onerror (error : string) (this : VoiceCortexApp) : VoiceCortexApp :=
  if String.eqb error "no-speech" then updateUI ui_ready this
  else if negb (String.eqb error "aborted") then
    updateUI ui_ready (showError ("Speech recognition error: " +:+ error) this)
  else this.

Definition onend (this : VoiceCortexApp) : VoiceCortexApp :=
  let this1 := set_isListening false this in
  if negb (isProcessing this1) then updateUI ui_ready this1 else this1.
(** *** Construction *)

Definition initSpeechRecognition (supported : bool) (this : VoiceCortexApp)
  : VoiceCortexApp :=
  if negb supported then
    showError
      "Speech recognition is not supported in this browser. Please use Chrome or Edge."
      this
  else
    set_recognition
      (Some {| lang := JS.or_ (language (settings this)) "en-US";
               started := false; stopRequested := false |})
      this.

(** [new VoiceCortexApp()]: [saved] is what local storage holds and
    [supported] whether the browser has a speech recognition constructor.
    The status line of the page starts as ready. *)
Definition constructor (saved : option Settings) (supported : bool)
  : VoiceCortexApp :=
  initSpeechRecognition supported
    {| recognition := None; isListening := false; isProcessing := false;
       conversation := []; settings := loadSettings saved;
       uiState := ui_ready; toast := None; settingsModal := false;
       inflight := []; fetchLog := [] |}.

(** *** The event loop *)

(** What can happen to the page: the listeners installed by
    [initEventListeners] ([MicClick] also stands for Ctrl+Space), the events
    of the recognition object, and the settlement of the [i]-th suspended
    exchange. *)
Inductive Event :=
| MicClick
| StopClick
| EscapeKey
| ClearClick (confirmed : bool)
| SettingsClick
| SettingsDismiss
| SettingsSave (inputs : Settings)
| RecognitionStart
| RecognitionResult (results : list (string * bool)) (now : Z)
| RecognitionError (error : string)
| RecognitionEnd
| Settled (i : nat) (outcome : FetchOutcome) (now : Z).

(** The recognition object is no longer started when it fires [end]. *)
Definition recognition_ended (this : VoiceCortexApp) : VoiceCortexApp :=
  match recognition this with
  | Some r =>
      set_recognition
        (Some {| lang := lang r; started := false; stopRequested := false |})
        this
  | None => this
  end.

Definition handle (e : Event) (this : VoiceCortexApp) : VoiceCortexApp :=
  match e with
  | MicClick => toggleListening this
  | StopClick => stopListening this
  | EscapeKey =>
      if settingsModal this then closeSettingsModal this
      else if isListening this then stopListening this
      else this
  | ClearClick confirmed => clearConversation confirmed this
  | SettingsClick => openSettings this
  | SettingsDismiss => closeSettingsModal this
  | SettingsSave inputs => saveSettingsData inputs this
  | RecognitionStart => onstart this
  | RecognitionResult results now => onresult results now this
  | RecognitionError error => onerror error this
  | RecognitionEnd => onend (recognition_ended this)
  | Settled i outcome now =>
      match inflight this !! i with
      | Some a =>
          handleFinalTranscript_resume (awaited_result a outcome) now
            (set_inflight (delete i (inflight this)) this)
      | None => this
      end
  end.

Definition recognizing (this : VoiceCortexApp) : bool :=
  match recognition this with
  | Some r => started r
  | None => false
  end.

(** The recognition object fires events only while it is started, and only
    a suspended exchange can settle. *)
Definition enabled (e : Event) (this : VoiceCortexApp) : bool :=
  match e with
  | RecognitionStart | RecognitionResult _ _ | RecognitionError _
  | RecognitionEnd => recognizing this
  | Settled i _ _ => bool_decide (i < length (inflight this))%nat
  | _ => true
  end.

Definition run (events : list Event) (this : VoiceCortexApp) : VoiceCortexApp :=
  foldl (fun s e => handle e s) this events.

Fixpoint admissible (events : list Event) (this : VoiceCortexApp) : bool :=
  match events with
  | [] => true
  | e :: rest => enabled e this && admissible rest (handle e this)
  end.

Inductive reachable : VoiceCortexApp -> Prop :=
| reachable_new saved supported : reachable (constructor saved supported)
| reachable_handle this e :
    reachable this -> enabled e this = true -> reachable (handle e this).

(** *** The turn-taking phase

    The page keeps the phase in its two flags; processing takes precedence,
    as in [onend]. *)
Inductive Phase := idle | listening | processing.

Definition phase (this : VoiceCortexApp) : Phase :=
  if isProcessing this then processing
  else if isListening this then listening
  else idle.

(** What a request that is ignored leaves as it was: the flags (hence the
    phase), the turns, whether a capture stream exists, the exchanges in
    flight and the calls made to the network. *)
Definition same_session (this this' : VoiceCortexApp) : Prop :=
  isListening this' = isListening this
  /\ isProcessing this' = isProcessing this
  /\ conversation this' = conversation this
  /\ recognizing this' = recognizing this
  /\ inflight this' = inflight this
  /\ fetchLog this' = fetchLog this.

(** A request body that names an account, a username and an agent. *)
Definition routed (request : Api.Request) : bool :=
  JS.truthy_str (Api.account request)
  && JS.truthy_str (Api.username request)
  && JS.truthy_str (Api.agent request).

(** A message whose text is empty once trimmed. *)
Definition blank (text : JS.value) : bool :=
  match text with
  | JS.Str s => negb (JS.truthy_str (JS.trim s))
  | JS.Undefined | JS.Null => true
  end.

(** The two kinds of entries [addMessage] is called for. *)
Definition user_turn (transcript : string) (now : Z) : Api.Message :=
  {| Api.role := "user"; Api.content := JS.Str transcript;
     Api.timestamp := now |}.

Definition agent_turn (text : JS.value) (now : Z) : Api.Message :=
  {| Api.role := "agent"; Api.content := text; Api.timestamp := now |}.

(** The text of the agent turn that closes an exchange: the response, or
    the apology when the awaited promise rejects. *)
Definition closing_text (result : string + JS.value) : JS.value :=
  match result with
  | inr response => response
  | inl _ => JS.Str apology
  end.

End App.

(** ** The page and the server together *)

Module System.

(** The JSON response of the server, as the [fetch] of the page sees it. *)
Definition delivered (reply : Server.Reply) : App.FetchOutcome :=
  App.Response (Server.status reply) (inr (Server.body reply)).

(** The prompt the server assembles for a request sent by the page. *)
Definition prompt_of (request : Api.Request) : string :=
  Server.fullPrompt (Api.conversation request) (Api.message request).

(** The prompt of the exchange that a final transcript starts, if it starts
    one that reaches the network. *)
Definition dispatched_prompt (transcript : string) (now : Z)
    (this : App.VoiceCortexApp) : option string :=
  if negb (JS.truthy_str (JS.trim transcript)) then None
  else
    match last (App.inflight (App.handleFinalTranscript transcript now this)) with
    | Some (App.Fetching request) => Some (prompt_of request)
    | _ => None
    end.

(** The server answers the [i]-th exchange in flight and the page resumes
    with its reply. *)
Definition serve
    (connect : Snowflake.Config -> option string)
    (execute : Snowflake.Connection -> string -> list string ->
               string + option (list Snowflake.Row))
    (pool : gmap string Snowflake.Connection) (i : nat) (now : Z)
    (this : App.VoiceCortexApp)
  : gmap string Snowflake.Connection * App.VoiceCortexApp :=
  match App.inflight this !! i with
  | Some (App.Fetching request) =>
      let (pool', reply) := Server.cortex_agent connect execute pool request in
      (pool', App.handle (App.Settled i (delivered reply) now) this)
  | _ => (pool, this)
  end.

End System.

(** ** Concrete sessions used by the examples *)

Module Scenario.

Definition configured : App.Settings :=
  {| App.account := "acme"; App.username := "ann"; App.password := "secret";
     App.warehouse := "COMPUTE_WH"; App.database := "CORTEX_DB";
     App.schema := "AGENTS"; App.agent := "mistral-large";
     App.language := "en-US" |}.

(** A page opened in a browser with speech recognition, settings saved. *)
Definition fresh : App.VoiceCortexApp := App.constructor (Some configured) true.

(** The user taps the microphone and capture begins. *)
Definition to_listening : list App.Event :=
  [App.MicClick; App.RecognitionStart].

(** A first utterance is recognised; the capture stream then ends while the
    exchange is in flight. *)
Definition to_processing : list App.Event :=
  to_listening
    ++ [App.RecognitionResult [("hi", true)] 1000; App.RecognitionEnd].

Definition capturing : App.VoiceCortexApp := App.run to_listening fresh.
Definition waiting : App.VoiceCortexApp := App.run to_processing fresh.

(** During the exchange the user taps the microphone again and speaks. *)
Definition second_capture : list App.Event :=
  [App.MicClick; App.RecognitionStart].

Definition second_utterance : list App.Event :=
  second_capture ++ [App.RecognitionResult [("and then", true)] 2000].

(** A whole exchange: capture, one utterance, the end of the stream and a
    successful answer of the server. *)
Definition exchange (utterance answer : string) (now : Z) : list App.Event :=
  [App.MicClick; App.RecognitionStart;
   App.RecognitionResult [(utterance, true)] now; App.RecognitionEnd;
   App.Settled 0
     (App.Response 200
        (inr {| Api.body_error := JS.Undefined;
                Api.body_message := JS.Undefined;
                Api.body_response := JS.Str answer |}))
     (now + 500)].

Definition three_exchanges : list App.Event :=
  exchange "hi" "hello" 1000 ++ exchange "how are you" "fine" 2000
    ++ exchange "ok" "good" 3000.

Definition after_three : App.VoiceCortexApp := App.run three_exchanges fresh.

(** The settings form with a blank account, and the user saving it while
    the first exchange is in flight. *)
Definition blank_account : App.Settings :=
  {| App.account := "   "; App.username := "ann"; App.password := "secret";
     App.warehouse := "COMPUTE_WH"; App.database := "CORTEX_DB";
     App.schema := "AGENTS"; App.agent := "mistral-large";
     App.language := "en-US" |}.

Definition invalidating : list App.Event :=
  to_processing ++ [App.SettingsClick; App.SettingsSave blank_account].

(** A Snowflake service that accepts every connection and answers every
    statement with one row holding [text]. *)
Definition accepts : Snowflake.Config -> option string := fun _ => None.

Definition answers (text : string)
  : Snowflake.Connection -> string -> list string ->
    string + option (list Snowflake.Row) :=
  fun _ _ _ => inr (Some [{| Snowflake.RESPONSE := JS.Str text |}]).

(** The same service answering with the second bind of the statement, the
    prompt, which makes the prompt that reaches the model observable. *)
Definition echoes
  : Snowflake.Connection -> string -> list string ->
    string + option (list Snowflake.Row) :=
  fun _ _ binds =>
    inr (Some [{| Snowflake.RESPONSE := JS.Str (default "" (binds !! 1%nat)) |}]).

(** The same service answering with the password of the connection it is
    asked over, which makes the connection in use observable. *)
Definition reveals
  : Snowflake.Connection -> string -> list string ->
    string + option (list Snowflake.Row) :=
  fun connection _ _ =>
    inr (Some [{| Snowflake.RESPONSE :=
                    JS.Str (Snowflake.password (Snowflake.options connection)) |}]).

(** The request of the exchange in flight in [waiting]. *)
Definition first_request : Api.Request :=
  App.request_body configured "hi" [App.user_turn "hi" 1000].

(** That request served by the route over an empty pool, and the outcome
    the page receives. *)
Definition served (text : string)
  : gmap string Snowflake.Connection * Server.Reply :=
  Server.cortex_agent accepts (answers text) ∅ first_request.

Definition answered (text : string) : App.FetchOutcome :=
  System.delivered (served text).2.

(** The connection stored by the first request, and a later request for the
    same account and username with another password and other selectors. *)
Definition stored : Snowflake.Connection :=
  {| Snowflake.options := Server.connection_options first_request |}.

Definition guess : Api.Request :=
  {| Api.account := "acme"; Api.username := "ann"; Api.password := "guess";
     Api.warehouse := "OTHER_WH"; Api.database := "OTHER_DB";
     Api.schema := "OTHER"; Api.agent := "mistral-large";
     Api.message := "hi"; Api.conversation := None |}.

(** The same request with the password of the stored connection and no
    selectors, and with no password at all. *)
Definition owner : Api.Request :=
  {| Api.account := "acme"; Api.username := "ann"; Api.password := "secret";
     Api.warehouse := ""; Api.database := ""; Api.schema := "";
     Api.agent := "mistral-large"; Api.message := "hi";
     Api.conversation := None |}.

Definition unsigned : Api.Request :=
  {| Api.account := "acme"; Api.username := "ann"; Api.password := "";
     Api.warehouse := "OTHER_WH"; Api.database := "OTHER_DB";
     Api.schema := "OTHER"; Api.agent := "mistral-large";
     Api.message := "hi"; Api.conversation := None |}.

(** The JSON body [{}]. *)
Definition no_fields : Api.Body :=
  {| Api.body_error := JS.Undefined; Api.body_message := JS.Undefined;
     Api.body_response := JS.Undefined |}.

(** The form saved with another account during the first exchange. *)
Definition other_account : App.Settings :=
  {| App.account := " globex "; App.username := "bob";
     App.password := "hunter2"; App.warehouse := ""; App.database := "";
     App.schema := ""; App.agent := "llama3"; App.language := "en-GB" |}.

End Scenario.

(** ** The route that lists models and agents *)

Module Show.

(** A row of a [SHOW ...] statement, as far as the route reads it. *)
Record Row := {
  name : JS.value;
  database_name : JS.value;
  schema_name : JS.value
}.

End Show.

Module Agents.

(** An entry of the [agents] array; [recommended] is present (and true) on
    two of the predefined models only. *)
Record Agent := {
  name : JS.value;
  type : string;
  provider : string;
  description : string;
  size : string;
  recommended : bool
}.

Definition model (name provider description size : string) (recommended : bool)
  : Agent :=
  {| name := JS.Str name; type := "model"; provider := provider;
     description := description; size := size; recommended := recommended |}.

Definition predefinedModels : list Agent :=
  [ model "mistral-large" "Mistral AI"
      "Best quality, complex reasoning tasks" "Large" true;
    model "mistral-large2" "Mistral AI"
      "Latest Mistral large model, improved performance" "Large" true;
    model "mixtral-8x7b" "Mistral AI"
      "Good balance of speed and quality" "Medium" false;
    model "llama3-70b" "Meta" "High quality responses" "Large" false;
    model "llama3-8b" "Meta"
      "Fast responses, good for simple tasks" "Small" false;
    model "llama3.1-70b" "Meta"
      "Latest Llama 3.1, improved capabilities" "Large" false;
    model "llama3.1-8b" "Meta"
      "Latest Llama 3.1, efficient and fast" "Small" false;
    model "mistral-7b" "Mistral AI" "Lightweight, cost-effective" "Small" false;
    model "gemma-7b" "Google" "Google's open model" "Small" false;
    model "reka-flash" "Reka AI" "Very fast inference" "Medium" false;
    model "snowflake-arctic" "Snowflake"
      "Snowflake's enterprise-grade model" "Large" false ].

(** The entry pushed for a row of [SHOW CORTEX SEARCH SERVICES]. *)
Definition search_service (service : Show.Row) : Agent :=
  {| name := Show.name service;
     type := "search_service";
     provider := "Custom";
     description :=
       "Cortex Search Service in "
         +:+ JS.template (Show.database_name service) +:+ "."
         +:+ JS.template (Show.schema_name service);
     size := "Custom";
     recommended := false |}.

(** The entry pushed for a row of [SHOW USER FUNCTIONS ...]. *)
Definition custom_function (func : Show.Row) : Agent :=
  {| name := Show.name func;
     type := "function";
     provider := "Custom";
     description := "Custom Cortex function";
     size := "Custom";
     recommended := false |}.

Definition services_statement : string := "SHOW CORTEX SEARCH SERVICES".

(** [`SHOW USER FUNCTIONS LIKE '%CORTEX%' IN SCHEMA ${schema || 'AGENTS'}`] *)
Definition functions_statement (req : Api.Request) : string :=
  "SHOW USER FUNCTIONS LIKE '%CORTEX%' IN SCHEMA "
    +:+ JS.or_ (Api.schema req) "AGENTS".

(** One of the two inner [try] blocks: the rows of the statement are pushed
    in order; a rejected statement, undefined rows or no row push nothing. *)
Definition pushed (outcome : string + option (list Show.Row))
    (entry : Show.Row -> Agent) : list Agent :=
  match outcome with
  | inr (Some rows) => entry <$> rows
  | inr None | inl _ => []
  end.

(** [res.json({ success: true, agents: agents, count: agents.length })] *)
Record Listing := {
  success : bool;
  agents : list Agent;
  count : nat
}.

Definition listing (agents : list Agent) : Listing :=
  {| success := true; agents := agents; count := length agents |}.

(** What the route sends: the listing, or
    [res.status(500).json({ success: false, error: error.message })]. *)
Inductive Answer :=
| Listed (reply : Listing)
| Failed (status : Z) (error : string).

Section Backend.

(** [connect] as for the completion route; [show] is the outcome of
    [connection.execute] for a [SHOW] statement (no binds). *)
Variable connect : Snowflake.Config -> option string.
Variable show :
  Snowflake.Connection -> string -> string + option (list Show.Row).

(** [app.post('/api/list-agents', ...)] *)
Definition list_agents
    (connectionPool : gmap string Snowflake.Connection) (req : Api.Request)
  : gmap string Snowflake.Connection * Listing :=
  if JS.truthy_str (Api.account req) && JS.truthy_str (Api.username req)
     && JS.truthy_str (Api.password req)
  then
    match Server.getSnowflakeConnection connect connectionPool
            (Server.connection_options req) with
    | (pool', inl connError) => (pool', listing predefinedModels)
    | (pool', inr connection) =>
        let services :=
          pushed (show connection services_statement) search_service in
        let functions :=
          pushed (show connection (functions_statement req)) custom_function in
        (pool', listing (predefinedModels ++ services ++ functions))
    end
  else (connectionPool, listing predefinedModels).

(** The route from [req.body]: [None] stands for a request without a parsed
    body, on which the destructuring at the top of the handler throws; the
    outer [catch] then answers with the message [thrown] of that error. *)
Definition route (thrown : string)
    (connectionPool : gmap string Snowflake.Connection)
    (body : option Api.Request)
  : gmap string Snowflake.Connection * Answer :=
  match body with
  | None => (connectionPool, Failed 500 thrown)
  | Some req =>
      let (pool', reply) := list_agents connectionPool req in
      (pool', Listed reply)
  end.

End Backend.

End Agents.

(** ** The connection pool when requests overlap

    [getSnowflakeConnection] tests the pool when it is called and stores the
    connection later, in the callback of [connection.connect]; other calls
    can run in between.  Here the two moments are separate steps. *)

Module Overlap.

(** The pool and the options of the connections whose [connect] has not
    called back yet, in the order of the calls. *)
Record State := {
  pool : gmap string Snowflake.Connection;
  connecting : list Snowflake.Config
}.

(** A call of [getSnowflakeConnection] up to its [return]: a stored
    connection is returned as it is; otherwise a connection is created and
    [connect] is started, and the pool is not touched. *)
Definition call (config : Snowflake.Config) (st : State)
  : State * option Snowflake.Connection :=
  match pool st !! Server.pool_key config with
  | Some cached => (st, Some cached)
  | None =>
      ({| pool := pool st; connecting := connecting st ++ [config] |}, None)
  end.

(** The callback of the [i]-th pending [connect]: with an error the promise
    rejects, without one the connection is stored under its key, over
    whatever is there. *)
Definition callback (i : nat) (err : option string) (st : State) : State :=
  match connecting st !! i with
  | None => st
  | Some config =>
      {| pool :=
           match err with
           | Some _ => pool st
           | None =>
               <[Server.pool_key config
                 := {| Snowflake.options := config |}]> (pool st)
           end;
         connecting := delete i (connecting st) |}
  end.

Inductive Step :=
| Call (config : Snowflake.Config)
| Callback (i : nat) (err : option string).

Definition step (s : Step) (st : State) : State :=
  match s with
  | Call config => (call config st).1
  | Callback i err => callback i err st
  end.

Definition run (steps : list Step) (st : State) : State :=
  foldl (fun st s => step s st) st steps.

(** The number of callbacks among the steps. *)
Fixpoint callbacks (steps : list Step) : nat :=
  match steps with
  | [] => 0
  | Call _ :: rest => callbacks rest
  | Callback _ _ :: rest => S (callbacks rest)
  end.

(** No pending [connect] will store under [key]. *)
Definition none_pending (key : string) (st : State) : Prop :=
  Forall (fun config => Server.pool_key config <> key) (connecting st).

(** A server that has just started. *)
Definition started : State := {| pool := ∅; connecting := [] |}.

End Overlap.

(** ** Further notions used by the properties *)

Module Cases.

(** The concatenation of the transcripts of the final results of an
    [onresult] event, in order. *)
Fixpoint finals (results : list (string * bool)) : string :=
  match results with
  | [] => ""
  | (transcript, isFinal) :: rest =>
      if isFinal then transcript +:+ finals rest else finals rest
  end.

Fixpoint interims (results : list (string * bool)) : string :=
  match results with
  | [] => ""
  | (transcript, isFinal) :: rest =>
      if isFinal then interims rest else transcript +:+ interims rest
  end.


(** A string that is empty or starts with a character that is not white
    space. *)
Definition trimmed_start (s : string) : Prop :=
  match s with
  | EmptyString => True
  | String c _ => JS.is_ws c = false
  end.

(** A JSON body that only carries a [response]. *)
Definition response_body (response : JS.value) : Api.Body :=
  {| Api.body_error := JS.Undefined; Api.body_message := JS.Undefined;
     Api.body_response := response |}.

(** A whole exchange on a page with [n] exchanges already in flight: the
    microphone is tapped, capture starts, [utterance] is recognised, the
    stream ends and the gateway answers [response] with status 200. *)
Definition exchange (n : nat) (utterance : string) (response : JS.value)
    (asked answered : Z) : list App.Event :=
  [App.MicClick; App.RecognitionStart;
   App.RecognitionResult [(utterance, true)] asked; App.RecognitionEnd;
   App.Settled n (App.Response 200 (inr (response_body response))) answered].

(** The entries stored in a pool are stored under the key of their own
    options. *)
Definition keyed (pool : gmap string Snowflake.Connection) : Prop :=
  forall (key : string) (connection : Snowflake.Connection),
    pool !! key = Some connection ->
    key = Server.pool_key (Snowflake.options connection).

(** A request with account [a], username [u] and password [p]. *)
Definition request_of (a u p agent message : string) : Api.Request :=
  {| Api.account := a; Api.username := u; Api.password := p;
     Api.warehouse := ""; Api.database := ""; Api.schema := "";
     Api.agent := agent; Api.message := message; Api.conversation := None |}.

(** Settings with an empty password. *)
Definition no_password : App.Settings :=
  {| App.account := "acme"; App.username := "ann"; App.password := "";
     App.warehouse := "COMPUTE_WH"; App.database := "CORTEX_DB";
     App.schema := "AGENTS"; App.agent := "mistral-large";
     App.language := "en-US" |}.

(** The rows a [SHOW] statement gave: none when it was rejected or when the
    driver left them undefined. *)
Definition rows (outcome : string + option (list Show.Row)) : list Show.Row :=
  match outcome with
  | inr (Some rows) => rows
  | inr None | inl _ => []
  end.

(** A Snowflake service that refuses every connection. *)
Definition refuses : Snowflake.Config -> option string :=
  fun _ => Some "Incorrect username or password was specified.".

(** A Snowflake service with one search service and no custom function. *)
Definition one_service
  : Snowflake.Connection -> string -> string + option (list Show.Row) :=
  fun _ statement =>
    if String.eqb statement Agents.services_statement
    then inr (Some [{| Show.name := JS.Str "DOCS";
                       Show.database_name := JS.Str "CORTEX_DB";
                       Show.schema_name := JS.Str "AGENTS" |}])
    else inl "SQL access control error".

End Cases.

(** * Properties *)

(** ** Strings and arrays *)

Lemma truthy_str_true (s : string) : JS.truthy_str s = true <-> s <> "".
Proof. destruct s; simpl; split; intros; congruence. Qed.

Lemma truthy_str_false (s : string) : JS.truthy_str s = false <-> s = "".
Proof. destruct s; simpl; split; intros; congruence. Qed.

Lemma and_truthy (a b : string) :
  JS.truthy_str (JS.and_ a b) = JS.truthy_str a && JS.truthy_str b.
Proof. unfold JS.and_. destruct a; reflexivity. Qed.

Lemma or_truthy (a d : string) :
  JS.truthy_str d = true -> JS.truthy_str (JS.or_ a d) = true.
Proof. unfold JS.or_. destruct a; auto. Qed.

(** [slice(-n)] keeps the last [n] elements, all of them when there are
    fewer. *)
Lemma slice_negative {A} (n : nat) (xs : list A) :
  (0 < n)%nat ->
  JS.slice (- Z.of_nat n) xs = drop (length xs - n) xs.
Proof.
  intros Hn. unfold JS.slice.
  destruct (Z.ltb_spec (- Z.of_nat n) 0) as [_ | Hge]; [ | lia ].
  f_equal. lia.
Qed.

Lemma slice_negative_length {A} (n : nat) (xs : list A) :
  (0 < n)%nat ->
  length (JS.slice (- Z.of_nat n) xs) = Nat.min (length xs) n.
Proof. intros Hn. rewrite slice_negative, length_drop by exact Hn. lia. Qed.

Lemma slice_negative_suffix {A} (n : nat) (xs : list A) :
  (0 < n)%nat ->
  take (length xs - n) xs ++ JS.slice (- Z.of_nat n) xs = xs.
Proof. intros Hn. rewrite slice_negative by exact Hn. apply take_drop. Qed.

(** ** Prompt assembly on the server *)

Lemma fullPrompt_no_history (message : string) :
  Server.fullPrompt None message = message
  /\ Server.fullPrompt (Some []) message = message.
Proof. split; reflexivity. Qed.

Lemma fullPrompt_history (history : list Api.Message) (message : string) :
  history <> [] ->
  let recent := drop (length history - 5) history in
  Server.fullPrompt (Some history) message
    = "Previous conversation:" +:+ JS.nl
        +:+ JS.join JS.nl (Server.render <$> recent)
        +:+ JS.nl +:+ JS.nl +:+ "User: " +:+ message
        +:+ JS.nl +:+ JS.nl +:+ "Assistant:"
  /\ length recent = Nat.min (length history) 5
  /\ take (length history - 5) history ++ recent = history.
Proof.
  intros Hne recent. subst recent.
  destruct history as [| m rest]; [ congruence | ].
  unfold Server.fullPrompt.
  change (-5) with (- Z.of_nat 5).
  rewrite slice_negative by lia.
  split; [ reflexivity | ].
  split; [ rewrite length_drop; lia | apply take_drop ].
Qed.

(** ** The parts of the state each method leaves alone *)

Lemma stopListening_frame (this : App.VoiceCortexApp) :
  let this' := App.stopListening this in
  App.isListening this' = App.isListening this
  /\ App.isProcessing this' = App.isProcessing this
  /\ App.conversation this' = App.conversation this
  /\ App.settings this' = App.settings this
  /\ App.inflight this' = App.inflight this
  /\ App.fetchLog this' = App.fetchLog this
  /\ App.recognizing this' = App.recognizing this.
Proof.
  unfold App.stopListening, App.recognizing, App.recognition_stop.
  destruct (App.recognition this) as [r |] eqn:Hr; simpl; [ | by rewrite Hr ].
  destruct (App.isListening this) eqn:Hl; simpl; [ | by rewrite Hr ].
  destruct (App.started r) eqn:Hs; simpl; by rewrite ?Hs.
Qed.

Lemma startListening_frame (this : App.VoiceCortexApp) :
  let this' := App.startListening this in
  App.isListening this' = App.isListening this
  /\ App.isProcessing this' = App.isProcessing this
  /\ App.conversation this' = App.conversation this
  /\ App.settings this' = App.settings this
  /\ App.inflight this' = App.inflight this
  /\ App.fetchLog this' = App.fetchLog this.
Proof.
  unfold App.startListening.
  destruct (App.recognition this) as [r |]; simpl; [ | done ].
  destruct (JS.truthy_str (App.validateSettings this)); simpl; done.
Qed.

(** The validation inside [sendToCortexAgent] is the one of
    [validateSettings]. *)
Lemma validateSettings_truthy (this : App.VoiceCortexApp) :
  JS.truthy_str (App.validateSettings this)
  = JS.truthy_str (App.account (App.settings this))
    && JS.truthy_str (App.username (App.settings this))
    && JS.truthy_str (App.agent (App.settings this)).
Proof. unfold App.validateSettings. by rewrite !and_truthy. Qed.

Lemma sendToCortexAgent_guard (s : App.Settings) :
  negb (JS.truthy_str (App.account s)) || negb (JS.truthy_str (App.username s))
    || negb (JS.truthy_str (App.agent s))
  = negb (JS.truthy_str (App.account s) && JS.truthy_str (App.username s)
          && JS.truthy_str (App.agent s)).
Proof.
  by destruct (JS.truthy_str (App.account s)),
    (JS.truthy_str (App.username s)), (JS.truthy_str (App.agent s)).
Qed.

(** What a final transcript does when it is not blank. *)
Lemma handleFinalTranscript_dispatch (transcript : string) (now : Z)
    (this : App.VoiceCortexApp) :
  JS.truthy_str (JS.trim transcript) = true ->
  let user_turn := App.user_turn transcript now in
  let request :=
    App.request_body (App.settings this) transcript
      (App.conversation this ++ [user_turn]) in
  let this' := App.handleFinalTranscript transcript now this in
  App.isProcessing this' = true
  /\ App.isListening this' = App.isListening this
  /\ App.settings this' = App.settings this
  /\ App.conversation this' = App.conversation this ++ [user_turn]
  /\ (if JS.truthy_str (App.validateSettings this)
      then App.inflight this' = App.inflight this ++ [App.Fetching request]
           /\ App.fetchLog this' = App.fetchLog this ++ [request]
      else App.inflight this' = App.inflight this ++ [App.Rejected App.incomplete]
           /\ App.fetchLog this' = App.fetchLog this).
Proof.
  intros Hu user_turn request.
  destruct (stopListening_frame this) as (Hl & Hp & Hc & Hs & Hi & Hf & _).
  unfold App.handleFinalTranscript. rewrite Hu. simpl.
  unfold App.sendToCortexAgent. simpl. rewrite Hs.
  rewrite sendToCortexAgent_guard, validateSettings_truthy.
  destruct (JS.truthy_str (App.account (App.settings this))
            && JS.truthy_str (App.username (App.settings this))
            && JS.truthy_str (App.agent (App.settings this)));
    simpl; rewrite ?Hl, ?Hc, ?Hi, ?Hf; done.
Qed.

Lemma handleFinalTranscript_blank (transcript : string) (now : Z)
    (this : App.VoiceCortexApp) :
  JS.truthy_str (JS.trim transcript) = false ->
  App.handleFinalTranscript transcript now this = this.
Proof. intros Hu. unfold App.handleFinalTranscript. by rewrite Hu. Qed.

(** ** Settings validation *)

(** C9 — validation of a settings object succeeds exactly when its account,
    its username and its agent identifier are all non-empty; the password,
    the warehouse, database and schema selectors and the language play no
    part in it. *)
Theorem validateSettings_iff (this : App.VoiceCortexApp) :
  (JS.truthy_str (App.validateSettings this) = true
   <-> App.account (App.settings this) <> ""
       /\ App.username (App.settings this) <> ""
       /\ App.agent (App.settings this) <> "")
  /\ (forall password warehouse database schema language : string,
        App.validateSettings
          (App.set_settings
             {| App.account := App.account (App.settings this);
                App.username := App.username (App.settings this);
                App.password := password;
                App.warehouse := warehouse;
                App.database := database;
                App.schema := schema;
                App.agent := App.agent (App.settings this);
                App.language := language |}
             this)
        = App.validateSettings this).
Proof.
  split; [ | reflexivity ].
  rewrite validateSettings_truthy, !andb_true_iff, !truthy_str_true.
  tauto.
Qed.

(** ** The prompt of an exchange, from the page to the server *)

(** The conversation sent with an utterance already ends with that
    utterance, because [handleFinalTranscript] calls [addMessage] before
    [sendToCortexAgent]. *)
Lemma dispatched_prompt_history (transcript : string) (now : Z)
    (this : App.VoiceCortexApp) :
  JS.truthy_str (JS.trim transcript) = true ->
  JS.truthy_str (App.validateSettings this) = true ->
  System.dispatched_prompt transcript now this
  = Some (Server.fullPrompt
            (Some (App.conversation this
                     ++ [{| Api.role := "user";
                            Api.content := JS.Str transcript;
                            Api.timestamp := now |}]))
            transcript).
Proof.
  intros Hu Hv. unfold System.dispatched_prompt. rewrite Hu. simpl.
  destruct (handleFinalTranscript_dispatch transcript now this Hu)
    as (_ & _ & _ & _ & Hd).
  rewrite Hv in Hd. destruct Hd as [Hi _].
  rewrite Hi, last_snoc. reflexivity.
Qed.

(** C1 — on a fresh page (no turn yet) the utterance "What is the weather"
    is dispatched with a prompt that is not the utterance: the server finds
    the utterance itself in the history and renders it a second time, and
    that is the prompt bound to the completion statement. *)
Theorem first_utterance_prompt :
  App.conversation Scenario.fresh = []
  /\ System.dispatched_prompt "What is the weather" 1000 Scenario.fresh
     = Some ("Previous conversation:" +:+ JS.nl
               +:+ "User: What is the weather" +:+ JS.nl +:+ JS.nl
               +:+ "User: What is the weather" +:+ JS.nl +:+ JS.nl
               +:+ "Assistant:")
  /\ System.dispatched_prompt "What is the weather" 1000 Scenario.fresh
     <> Some "What is the weather"
  /\ App.conversation
       (System.serve Scenario.accepts Scenario.echoes ∅ 0 1500
          (App.handleFinalTranscript "What is the weather" 1000
             Scenario.fresh)).2
     = [App.user_turn "What is the weather" 1000;
        App.agent_turn
          (JS.Str ("Previous conversation:" +:+ JS.nl
                     +:+ "User: What is the weather" +:+ JS.nl +:+ JS.nl
                     +:+ "User: What is the weather" +:+ JS.nl +:+ JS.nl
                     +:+ "Assistant:"))
          1500].
Proof.
  split; [ reflexivity | ]. split; [ reflexivity | ].
  split; [ discriminate | ].
  vm_compute. reflexivity.
Qed.

(** After three exchanges (six turns) the utterance "bye" is dispatched with
    four of the earlier turns, then itself as the fifth, then itself again. *)
Lemma seventh_turn_prompt :
  App.admissible Scenario.three_exchanges Scenario.fresh = true
  /\ (Api.content <$> App.conversation Scenario.after_three)
     = [JS.Str "hi"; JS.Str "hello"; JS.Str "how are you"; JS.Str "fine";
        JS.Str "ok"; JS.Str "good"]
  /\ System.dispatched_prompt "bye" 4000 Scenario.after_three
     = Some ("Previous conversation:" +:+ JS.nl
               +:+ "User: how are you" +:+ JS.nl
               +:+ "Assistant: fine" +:+ JS.nl
               +:+ "User: ok" +:+ JS.nl
               +:+ "Assistant: good" +:+ JS.nl
               +:+ "User: bye" +:+ JS.nl +:+ JS.nl
               +:+ "User: bye" +:+ JS.nl +:+ JS.nl
               +:+ "Assistant:").
Proof. split; [ | split ]; reflexivity. Qed.

(** ** The connection pool *)

Section Pool.

Variable connect : Snowflake.Config -> option string.
Variable execute :
  Snowflake.Connection -> string -> list string ->
  string + option (list Snowflake.Row).

Implicit Types (pool : gmap string Snowflake.Connection).

(** The key only reads the account and the username. *)
Lemma pool_key_eq (config config' : Snowflake.Config) :
  Snowflake.account config' = Snowflake.account config ->
  Snowflake.username config' = Snowflake.username config ->
  Server.pool_key config' = Server.pool_key config.
Proof. unfold Server.pool_key. by intros -> ->. Qed.

Lemma getSnowflakeConnection_hit pool config cached :
  pool !! Server.pool_key config = Some cached ->
  Server.getSnowflakeConnection connect pool config = (pool, inr cached).
Proof. intros H. unfold Server.getSnowflakeConnection. by rewrite H. Qed.

(** A first successful use stores the connection made with its options. *)
Lemma getSnowflakeConnection_caches pool config :
  pool !! Server.pool_key config = None ->
  connect config = None ->
  (Server.getSnowflakeConnection connect pool config).1
    !! Server.pool_key config
  = Some {| Snowflake.options := config |}.
Proof.
  intros Hp Hc. unfold Server.getSnowflakeConnection. rewrite Hp, Hc. simpl.
  apply lookup_insert_eq.
Qed.

(** The reply over a connection reads the agent, the message and the
    conversation of the request, and nothing else of it. *)
Lemma complete_reads (connection : Snowflake.Connection)
    (req req' : Api.Request) :
  Api.agent req' = Api.agent req ->
  Api.message req' = Api.message req ->
  Api.conversation req' = Api.conversation req ->
  Server.complete execute connection req'
  = Server.complete execute connection req.
Proof. unfold Server.complete. by intros -> -> ->. Qed.

(** A request with its required fields whose key is in the pool. *)
Lemma cortex_agent_hit pool req cached :
  Server.missing_fields req = false ->
  pool !! Server.pool_key (Server.connection_options req) = Some cached ->
  Server.cortex_agent connect execute pool req
  = (pool, Server.complete execute cached req).
Proof.
  intros Hm Hp. unfold Server.cortex_agent.
  by rewrite Hm, (getSnowflakeConnection_hit pool _ cached Hp).
Qed.

(** A call that nothing overlaps, followed by its callback, is
    [getSnowflakeConnection] taken in one step. *)
Lemma getSnowflakeConnection_alone pool config :
  let st := {| Overlap.pool := pool; Overlap.connecting := [] |} in
  match Overlap.call config st with
  | (_, Some cached) =>
      Server.getSnowflakeConnection connect pool config = (pool, inr cached)
  | (st', None) =>
      Overlap.callback 0 (connect config) st'
      = {| Overlap.pool :=
             (Server.getSnowflakeConnection connect pool config).1;
           Overlap.connecting := [] |}
  end.
Proof.
  unfold Overlap.call, Server.getSnowflakeConnection. simpl.
  destruct (pool !! Server.pool_key config); [ done | ].
  unfold Overlap.callback. simpl. by destruct (connect config).
Qed.

End Pool.

(** ** The pool under overlapping calls *)

Lemma call_hit (config : Snowflake.Config) (st : Overlap.State)
    (cached : Snowflake.Connection) :
  Overlap.pool st !! Server.pool_key config = Some cached ->
  Overlap.call config st = (st, Some cached).
Proof. intros H. unfold Overlap.call. by rewrite H. Qed.

Lemma call_miss (config : Snowflake.Config) (st : Overlap.State) :
  Overlap.pool st !! Server.pool_key config = None ->
  Overlap.call config st
  = ({| Overlap.pool := Overlap.pool st;
        Overlap.connecting := Overlap.connecting st ++ [config] |}, None).
Proof. intros H. unfold Overlap.call. by rewrite H. Qed.

Lemma call_pool (config : Snowflake.Config) (st : Overlap.State) :
  Overlap.pool (Overlap.call config st).1 = Overlap.pool st.
Proof.
  unfold Overlap.call. by destruct (Overlap.pool st !! Server.pool_key config).
Qed.

(** What a step does to the pool: nothing, or the store of a connection
    under the key of its own options. *)
Lemma step_pool (s : Overlap.Step) (st : Overlap.State) :
  Overlap.pool (Overlap.step s st) = Overlap.pool st
  \/ exists i config,
       s = Overlap.Callback i None
       /\ Overlap.connecting st !! i = Some config
       /\ Overlap.pool (Overlap.step s st)
          = <[Server.pool_key config := {| Snowflake.options := config |}]>
              (Overlap.pool st).
Proof.
  destruct s as [config | i err]; simpl.
  - left. apply call_pool.
  - unfold Overlap.callback.
    destruct (Overlap.connecting st !! i) as [config |] eqn:Hi; [ | by left ].
    destruct err as [err |]; [ by left | ].
    right. by exists i, config.
Qed.

(** A key of the pool stays in the pool. *)
Lemma step_keeps_key (s : Overlap.Step) (st : Overlap.State) (key : string) :
  is_Some (Overlap.pool st !! key) ->
  is_Some (Overlap.pool (Overlap.step s st) !! key).
Proof.
  intros Hk.
  destruct (step_pool s st) as [-> | (i & config & _ & _ & ->)]; [ done | ].
  rewrite lookup_insert_is_Some'. by right.
Qed.

Lemma run_keeps_key (steps : list Overlap.Step) (st : Overlap.State)
    (key : string) :
  is_Some (Overlap.pool st !! key) ->
  is_Some (Overlap.pool (Overlap.run steps st) !! key).
Proof.
  unfold Overlap.run. revert st.
  induction steps as [| s steps IH]; intros st Hk; [ done | ].
  simpl. apply IH. by apply step_keeps_key.
Qed.

(** An entry stays as it is as long as no [connect] started before it was
    stored is still pending for its key: later calls for the key find the
    entry and start none. *)
Lemma step_keeps_entry (s : Overlap.Step) (st : Overlap.State) (key : string)
    (cached : Snowflake.Connection) :
  Overlap.pool st !! key = Some cached ->
  Overlap.none_pending key st ->
  Overlap.pool (Overlap.step s st) !! key = Some cached
  /\ Overlap.none_pending key (Overlap.step s st).
Proof.
  unfold Overlap.none_pending. intros Hk Hnone.
  destruct s as [config | i err]; simpl.
  - unfold Overlap.call.
    destruct (Overlap.pool st !! Server.pool_key config) eqn:Hp; [ done | ].
    simpl. split; [ done | ].
    apply Forall_app. split; [ done | ].
    apply Forall_singleton. congruence.
  - unfold Overlap.callback.
    destruct (Overlap.connecting st !! i) as [config |] eqn:Hi; [ | done ].
    simpl. split; [ | by apply Forall_delete ].
    rewrite Forall_lookup in Hnone. specialize (Hnone i config Hi).
    destruct err; [ done | ]. by rewrite lookup_insert_ne.
Qed.

Lemma run_keeps_entry (steps : list Overlap.Step) (st : Overlap.State)
    (key : string) (cached : Snowflake.Connection) :
  Overlap.pool st !! key = Some cached ->
  Overlap.none_pending key st ->
  Overlap.pool (Overlap.run steps st) !! key = Some cached.
Proof.
  unfold Overlap.run. revert st.
  induction steps as [| s steps IH]; intros st Hk Hnone; [ done | ].
  simpl. destruct (step_keeps_entry s st key cached Hk Hnone) as [Hk' Hnone'].
  by apply IH.
Qed.

(** C10 (counterexample) — a request for an account and a username whose
    connection is stored is not served over it when it carries no password:
    it is refused with status 400, while the same request with any password
    gets the completion made over the stored connection.  The result does
    depend on the password of the later request. *)
Lemma empty_password_not_served :
  let pool : gmap string Snowflake.Connection :=
    {[ "acme-ann" := Scenario.stored ]} in
  Api.account Scenario.unsigned = Api.account Scenario.guess
  /\ Api.username Scenario.unsigned = Api.username Scenario.guess
  /\ pool !! Server.pool_key (Server.connection_options Scenario.guess)
     = Some Scenario.stored
  /\ Server.cortex_agent Scenario.accepts Scenario.reveals pool Scenario.guess
     = (pool, Server.json_success (JS.Str "secret"))
  /\ Server.cortex_agent Scenario.accepts Scenario.reveals pool
       Scenario.unsigned
     = (pool, Server.json_error 400 "Missing required fields" JS.Undefined).
Proof. cbv zeta. repeat split; vm_compute; reflexivity. Qed.

(** C10 (amended) — once a connection is stored under the key of an
    account and a username, that key stays in the pool whatever calls and callbacks of
    [getSnowflakeConnection] follow, and the stored connection itself stays
    unless a [connect] for the same key, started before it was stored, is
    still pending.  A later request for that account and username obtains
    the connection stored at that moment without any connection attempt and
    without change to the pool, whatever its password, warehouse, database
    and schema.  When it carries the required fields, the reply of the route
    is the completion over that connection and is the same for every
    non-empty password and every warehouse, database and schema, and
    whatever Snowflake would answer to a connection attempt; with an empty
    password the route answers 400 instead. *)
Theorem cached_connection_serves_later_requests
    (connect connect' : Snowflake.Config -> option string)
    (execute : Snowflake.Connection -> string -> list string ->
               string + option (list Snowflake.Row))
    (st : Overlap.State)
    (first : Snowflake.Config) (cached : Snowflake.Connection)
    (steps : list Overlap.Step) (later later' : Api.Request) :
  Overlap.pool st !! Server.pool_key first = Some cached ->
  Api.account later = Snowflake.account first ->
  Api.username later = Snowflake.username first ->
  Api.account later' = Api.account later ->
  Api.username later' = Api.username later ->
  Api.agent later' = Api.agent later ->
  Api.message later' = Api.message later ->
  Api.conversation later' = Api.conversation later ->
  let st' := Overlap.run steps st in
  let pool' := Overlap.pool st' in
  exists current : Snowflake.Connection,
    pool' !! Server.pool_key first = Some current
    /\ (Overlap.none_pending (Server.pool_key first) st -> current = cached)
    /\ (forall config : Snowflake.Config,
          Snowflake.account config = Snowflake.account first ->
          Snowflake.username config = Snowflake.username first ->
          Overlap.call config st' = (st', Some current)
          /\ Server.getSnowflakeConnection connect pool' config
             = (pool', inr current))
    /\ (Server.missing_fields later = false ->
        Server.cortex_agent connect execute pool' later
        = (pool', Server.complete execute current later)
        /\ (Api.password later' <> "" ->
            Server.cortex_agent connect' execute pool' later'
            = Server.cortex_agent connect execute pool' later)
        /\ (Api.password later' = "" ->
            Server.cortex_agent connect' execute pool' later'
            = (pool',
               Server.json_error 400 "Missing required fields"
                 JS.Undefined))).
Proof.
  intros Hk Ha Hu Ha' Hu' Hg' Hm' Hc' st' pool'.
  destruct (run_keeps_key steps st (Server.pool_key first))
    as [current Hcurrent]; [ by eexists | ].
  fold st' in Hcurrent. fold pool' in Hcurrent.
  exists current. split; [ exact Hcurrent | ].
  split.
  { intros Hnone.
    pose proof (run_keeps_entry steps st _ cached Hk Hnone) as Hsame.
    fold st' in Hsame. fold pool' in Hsame. congruence. }
  split.
  { intros config Hca Hcu.
    assert (pool' !! Server.pool_key config = Some current) as Hhit
      by by rewrite (pool_key_eq first config).
    split; [ by apply call_hit | by apply getSnowflakeConnection_hit ]. }
  intros Hm.
  assert (pool' !! Server.pool_key (Server.connection_options later)
          = Some current) as Hlater
    by by rewrite (pool_key_eq first (Server.connection_options later)).
  assert (pool' !! Server.pool_key (Server.connection_options later')
          = Some current) as Hlater'.
  { rewrite (pool_key_eq first (Server.connection_options later'));
      [ done | simpl; congruence | simpl; congruence ]. }
  rewrite (cortex_agent_hit connect execute pool' later current Hm Hlater).
  split; [ done | ].
  unfold Server.missing_fields in Hm.
  apply orb_false_iff in Hm as [Hm Hmsg].
  apply orb_false_iff in Hm as [Hm Hagent].
  apply orb_false_iff in Hm as [Hm _].
  apply orb_false_iff in Hm as [Hacc Huser].
  split.
  - intros Hpw.
    rewrite (cortex_agent_hit connect' execute pool' later' current);
      [ by rewrite (complete_reads execute current later later') | | done ].
    unfold Server.missing_fields.
    rewrite Ha', Hu', Hg', Hm', Hacc, Huser, Hagent, Hmsg.
    apply truthy_str_true in Hpw. by rewrite Hpw.
  - intros Hpw. unfold Server.cortex_agent, Server.missing_fields.
    rewrite Hpw. simpl. by rewrite orb_true_r.
Qed.

Lemma cached_connection_witness :
  let pool : gmap string Snowflake.Connection :=
    {[ "acme-ann" := Scenario.stored ]} in
  Server.cortex_agent Cases.refuses Scenario.reveals pool Scenario.owner
  = Server.cortex_agent Scenario.accepts Scenario.reveals pool Scenario.guess
  /\ Server.cortex_agent Scenario.accepts Scenario.reveals pool Scenario.guess
     = (pool, Server.json_success (JS.Str "secret")).
Proof.
  cbv zeta.
  destruct (cached_connection_serves_later_requests
              Scenario.accepts Cases.refuses Scenario.reveals
              {| Overlap.pool := {[ "acme-ann" := Scenario.stored ]};
                 Overlap.connecting := [] |}
              (Snowflake.options Scenario.stored) Scenario.stored
              [] Scenario.guess Scenario.owner)
    as (current & Hcurrent & Hsame & _ & Hroute).
  - vm_compute. reflexivity.
  - reflexivity.
  - reflexivity.
  - reflexivity.
  - reflexivity.
  - reflexivity.
  - reflexivity.
  - reflexivity.
  - cbv [Overlap.run foldl Overlap.pool] in Hroute, Hcurrent.
    destruct (Hroute eq_refl) as (Hserved & Hindep & _).
    split.
    + apply Hindep. discriminate.
    + rewrite Hserved, (Hsame (Forall_nil_2 _)). reflexivity.
Defined.

(** ** The session state machine *)

Lemma handleFinalTranscript_resume_spec (result : string + JS.value) (now : Z)
    (this : App.VoiceCortexApp) :
  let this' := App.handleFinalTranscript_resume result now this in
  App.isProcessing this' = false
  /\ App.uiState this' = App.ui_ready
  /\ App.isListening this' = App.isListening this
  /\ App.recognition this' = App.recognition this
  /\ App.settings this' = App.settings this
  /\ App.inflight this' = App.inflight this
  /\ App.fetchLog this' = App.fetchLog this
  /\ App.conversation this'
     = App.conversation this ++ [App.agent_turn (App.closing_text result) now]
  /\ App.toast this'
     = match result with
       | inl detail =>
           Some {| App.toast_message :=
                     "Error communicating with Cortex Agent: " +:+ detail;
                   App.toast_type := "error" |}
       | inr _ => App.toast this
       end.
Proof. destruct result; repeat split; reflexivity. Qed.

Lemma saveSettingsData_frame (inputs : App.Settings) (this : App.VoiceCortexApp) :
  let this' := App.saveSettingsData inputs this in
  App.settings this' = App.form_settings inputs
  /\ App.isListening this' = App.isListening this
  /\ App.isProcessing this' = App.isProcessing this
  /\ App.conversation this' = App.conversation this
  /\ App.inflight this' = App.inflight this
  /\ App.fetchLog this' = App.fetchLog this
  /\ App.recognizing this' = App.recognizing this.
Proof.
  unfold App.saveSettingsData, App.recognizing. simpl.
  destruct (App.recognition this) as [r |] eqn:Hr; simpl; by rewrite ?Hr.
Qed.

Lemma onresult_cases (results : list (string * bool)) (now : Z)
    (this : App.VoiceCortexApp) :
  App.onresult results now this = this
  \/ exists transcript,
       JS.truthy_str (JS.trim transcript) = true
       /\ App.onresult results now this
          = App.handleFinalTranscript transcript now this.
Proof.
  unfold App.onresult.
  destruct (App.transcripts results "" "") as [interim final].
  destruct (JS.truthy_str final); [ | by left ].
  destruct (JS.truthy_str (JS.trim final)) eqn:Hu.
  - right. by exists final.
  - left. by apply handleFinalTranscript_blank.
Qed.

Lemma handleFinalTranscript_recognizing (transcript : string) (now : Z)
    (this : App.VoiceCortexApp) :
  App.recognizing (App.handleFinalTranscript transcript now this)
  = App.recognizing this.
Proof.
  destruct (stopListening_frame this) as (_ & _ & _ & Hs & _ & _ & Hr).
  unfold App.handleFinalTranscript.
  destruct (negb (JS.truthy_str (JS.trim transcript))); [ done | ].
  unfold App.sendToCortexAgent. simpl.
  by destruct (negb _ || negb _ || negb _).
Qed.

Lemma onend_frame (this : App.VoiceCortexApp) :
  let this' := App.onend (App.recognition_ended this) in
  App.conversation this' = App.conversation this
  /\ App.fetchLog this' = App.fetchLog this
  /\ App.inflight this' = App.inflight this
  /\ App.isProcessing this' = App.isProcessing this
  /\ App.settings this' = App.settings this
  /\ App.isListening this' = false.
Proof.
  unfold App.onend, App.recognition_ended.
  destruct (App.recognition this); simpl;
    destruct (App.isProcessing this) eqn:Hp; simpl; by rewrite ?Hp.
Qed.

Lemma run_reachable (events : list App.Event) (this : App.VoiceCortexApp) :
  App.reachable this ->
  App.admissible events this = true ->
  App.reachable (App.run events this).
Proof.
  revert this. induction events as [| e rest IH]; intros this Hr Ha; [ done | ].
  simpl in Ha. apply andb_true_iff in Ha as [He Ha].
  apply (IH (App.handle e this)); [ by constructor | done ].
Qed.

(** While the page believes it is listening, the recognition object is
    started. *)
Lemma reachable_listening_recognizing (this : App.VoiceCortexApp) :
  App.reachable this ->
  App.isListening this = true -> App.recognizing this = true.
Proof.
  induction 1 as [saved supported | this e Hr IH He].
  - by destruct supported.
  - destruct e; cbn [App.handle]; simpl in He.
    + unfold App.toggleListening. destruct (App.isListening this) eqn:Hl.
      * destruct (stopListening_frame this) as (H1 & _ & _ & _ & _ & _ & H7).
        rewrite H1, H7. auto.
      * destruct (startListening_frame this) as (H1 & _).
        rewrite H1, Hl. discriminate.
    + destruct (stopListening_frame this) as (H1 & _ & _ & _ & _ & _ & H7).
      rewrite H1, H7. auto.
    + destruct (App.settingsModal this); [ exact IH | ].
      destruct (App.isListening this) eqn:Hl; [ | by rewrite Hl ].
      destruct (stopListening_frame this) as (H1 & _ & _ & _ & _ & _ & H7).
      rewrite H1, H7. auto.
    + by destruct confirmed.
    + exact IH.
    + exact IH.
    + destruct (saveSettingsData_frame inputs this)
        as (_ & H1 & _ & _ & _ & _ & H6).
      rewrite H1, H6. exact IH.
    + intros _. exact He.
    + destruct (onresult_cases results now this) as [-> | (t & Ht & ->)];
        [ exact IH | ].
      rewrite handleFinalTranscript_recognizing.
      destruct (handleFinalTranscript_dispatch t now this Ht) as (_ & -> & _).
      exact IH.
    + unfold App.onerror.
      destruct (String.eqb error "no-speech"); [ exact IH | ].
      destruct (negb (String.eqb error "aborted")); exact IH.
    + unfold App.onend. simpl.
      by destruct (negb (App.isProcessing (App.recognition_ended this))).
    + destruct (App.inflight this !! i) as [a |]; [ | exact IH ].
      pose proof (handleFinalTranscript_resume_spec
                    (App.awaited_result a outcome) now
                    (App.set_inflight (delete i (App.inflight this)) this))
        as (_ & _ & H3 & H4 & _).
      unfold App.recognizing in *. rewrite H4. simpl in H3 |- *.
      rewrite H3. exact IH.
Qed.

(** *** Start requests *)

(** C2 (counterexample) — a start request made while processing, after the
    capture stream has ended, is not ignored: the recognition object is
    started again, and the utterance it hears is dispatched while the first
    exchange is still in flight. *)
Lemma start_request_while_processing :
  App.admissible (Scenario.to_processing ++ Scenario.second_utterance)
    Scenario.fresh = true
  /\ App.phase Scenario.waiting = App.processing
  /\ App.recognizing Scenario.waiting = false
  /\ App.recognizing (App.handle App.MicClick Scenario.waiting) = true
  /\ App.isListening (App.run Scenario.second_capture Scenario.waiting) = true
  /\ length (App.inflight (App.run Scenario.second_utterance Scenario.waiting))
     = 2%nat
  /\ length (App.fetchLog (App.run Scenario.second_utterance Scenario.waiting))
     = 2%nat
  /\ (Api.content
        <$> App.conversation
              (App.run Scenario.second_utterance Scenario.waiting))
     = [JS.Str "hi"; JS.Str "and then"].
Proof. repeat split; reflexivity. Qed.

(** C2 (amended) — while a capture stream exists (the phase is listening
    or, more generally, the recognition object is started) a start request,
    be it the microphone toggle or a call of [startListening], changes
    neither the flags nor the turns, starts no second stream and dispatches
    nothing; while listening the toggle is a request to stop the stream. *)
Theorem start_request_while_capturing (this : App.VoiceCortexApp) :
  App.reachable this ->
  App.phase this = App.listening \/ App.recognizing this = true ->
  App.same_session this (App.toggleListening this)
  /\ App.same_session this (App.startListening this)
  /\ (App.isListening this = true ->
      App.toggleListening this = App.stopListening this).
Proof.
  intros Hreach Hcap.
  assert (App.recognizing this = true) as Hrec.
  { destruct Hcap as [Hph | Hrec]; [ | done ].
    apply reachable_listening_recognizing; [ done | ].
    unfold App.phase in Hph.
    destruct (App.isProcessing this); [ discriminate | ].
    by destruct (App.isListening this). }
  assert (App.same_session this (App.stopListening this)) as Hstop.
  { destruct (stopListening_frame this) as (H1 & H2 & H3 & _ & H5 & H6 & H7).
    by repeat split. }
  assert (App.same_session this (App.startListening this)) as Hstart.
  { destruct (startListening_frame this) as (H1 & H2 & H3 & _ & H5 & H6).
    repeat split; try done.
    unfold App.recognizing in *. unfold App.startListening.
    destruct (App.recognition this) as [r |] eqn:Hr; [ | discriminate ].
    destruct (negb (JS.truthy_str (App.validateSettings this))); simpl;
      [ by rewrite Hr | ].
    unfold App.recognition_start. simpl. by rewrite Hrec. }
  split; [ | split ].
  - unfold App.toggleListening. by destruct (App.isListening this).
  - exact Hstart.
  - intros Hl. unfold App.toggleListening. by rewrite Hl.
Qed.

Lemma start_request_while_capturing_witness :
  App.phase Scenario.capturing = App.listening
  /\ App.same_session Scenario.capturing
       (App.toggleListening Scenario.capturing).
Proof.
  split; [ reflexivity | ].
  apply (start_request_while_capturing Scenario.capturing).
  - apply (run_reachable Scenario.to_listening Scenario.fresh);
      [ apply App.reachable_new | reflexivity ].
  - left. reflexivity.
Defined.

(** *** Clearing the conversation *)

(** C5 (counterexample) — clearing while listening leaves the session
    listening, and clearing while processing leaves it processing. *)
Lemma clear_keeps_phase :
  App.admissible Scenario.to_processing Scenario.fresh = true
  /\ App.phase Scenario.capturing = App.listening
  /\ App.phase (App.handle (App.ClearClick true) Scenario.capturing)
     = App.listening
  /\ App.phase Scenario.waiting = App.processing
  /\ App.phase (App.handle (App.ClearClick true) Scenario.waiting)
     = App.processing.
Proof. repeat split; reflexivity. Qed.

(** C5 (amended) — a confirmed clear request empties the turns and leaves
    the phase as it was, whatever the phase; a declined one changes
    nothing. *)
Theorem clearConversation_spec (this : App.VoiceCortexApp) :
  App.conversation (App.clearConversation true this) = []
  /\ App.phase (App.clearConversation true this) = App.phase this
  /\ App.isListening (App.clearConversation true this) = App.isListening this
  /\ App.isProcessing (App.clearConversation true this)
     = App.isProcessing this
  /\ App.clearConversation false this = this.
Proof. repeat split; reflexivity. Qed.

(** *** How an event changes the turns and the calls to the network *)

Lemma handle_conversation (e : App.Event) (this : App.VoiceCortexApp) :
  App.conversation (App.handle e this) = App.conversation this
  \/ App.conversation (App.handle e this) = []
  \/ (exists transcript now,
        JS.truthy_str (JS.trim transcript) = true
        /\ App.conversation (App.handle e this)
           = App.conversation this ++ [App.user_turn transcript now])
  \/ (exists text now,
        App.conversation (App.handle e this)
        = App.conversation this ++ [App.agent_turn text now]).
Proof.
  destruct e; cbn [App.handle].
  - left. unfold App.toggleListening. destruct (App.isListening this).
    + apply stopListening_frame.
    + apply startListening_frame.
  - left. apply stopListening_frame.
  - left. destruct (App.settingsModal this); [ done | ].
    destruct (App.isListening this); [ apply stopListening_frame | done ].
  - destruct confirmed; [ right; by left | by left ].
  - by left.
  - by left.
  - left. apply saveSettingsData_frame.
  - by left.
  - destruct (onresult_cases results now this) as [-> | (t & Ht & ->)];
      [ by left | ].
    right; right; left. exists t, now. split; [ done | ].
    apply (handleFinalTranscript_dispatch t now this Ht).
  - left. unfold App.onerror.
    destruct (String.eqb error "no-speech"); [ done | ].
    by destruct (negb (String.eqb error "aborted")).
  - left. apply onend_frame.
  - destruct (App.inflight this !! i) as [a |]; [ | by left ].
    right; right; right.
    exists (App.closing_text (App.awaited_result a outcome)), now.
    apply (handleFinalTranscript_resume_spec (App.awaited_result a outcome) now
             (App.set_inflight (delete i (App.inflight this)) this)).
Qed.

Lemma handle_fetchLog (e : App.Event) (this : App.VoiceCortexApp) :
  App.fetchLog (App.handle e this) = App.fetchLog this
  \/ (JS.truthy_str (App.validateSettings this) = true
      /\ exists transcript now,
           App.fetchLog (App.handle e this)
           = App.fetchLog this
               ++ [App.request_body (App.settings this) transcript
                     (App.conversation this
                        ++ [App.user_turn transcript now])]).
Proof.
  destruct e; cbn [App.handle].
  - left. unfold App.toggleListening. destruct (App.isListening this).
    + apply stopListening_frame.
    + apply startListening_frame.
  - left. apply stopListening_frame.
  - left. destruct (App.settingsModal this); [ done | ].
    destruct (App.isListening this); [ apply stopListening_frame | done ].
  - left. by destruct confirmed.
  - by left.
  - by left.
  - left. apply saveSettingsData_frame.
  - by left.
  - destruct (onresult_cases results now this) as [-> | (t & Ht & ->)];
      [ by left | ].
    destruct (handleFinalTranscript_dispatch t now this Ht)
      as (_ & _ & _ & _ & Hd).
    destruct (JS.truthy_str (App.validateSettings this)).
    + right. split; [ done | ]. exists t, now. apply Hd.
    + left. apply Hd.
  - left. unfold App.onerror.
    destruct (String.eqb error "no-speech"); [ done | ].
    by destruct (negb (String.eqb error "aborted")).
  - left. apply (onend_frame this).
  - destruct (App.inflight this !! i) as [a |]; [ | by left ].
    left.
    apply (handleFinalTranscript_resume_spec (App.awaited_result a outcome) now
             (App.set_inflight (delete i (App.inflight this)) this)).
Qed.

(** *** Turns without text *)

(** Every turn of the user holds a text that is not blank. *)
Lemma reachable_user_turns (this : App.VoiceCortexApp) :
  App.reachable this ->
  Forall (fun turn => Api.role turn = "user" -> App.blank (Api.content turn) = false)
    (App.conversation this).
Proof.
  induction 1 as [saved supported | this e Hr IH He].
  - destruct supported; constructor.
  - destruct (handle_conversation e this)
      as [-> | [-> | [(t & now & Ht & ->) | (v & now & ->)]]].
    + exact IH.
    + constructor.
    + apply Forall_app. split; [ exact IH | ].
      constructor; [ | constructor ].
      intros _. simpl. by rewrite Ht.
    + apply Forall_app. split; [ exact IH | ].
      constructor; [ | constructor ].
      simpl. discriminate.
Qed.

(** C3 (counterexample) — the server relays an empty completion as it is,
    and the page appends it: the conversation then holds a turn without
    text. *)
Lemma empty_agent_turn :
  App.admissible Scenario.to_processing Scenario.fresh = true
  /\ App.enabled (App.Settled 0 (Scenario.answered "") 1500) Scenario.waiting
     = true
  /\ Scenario.answered ""
     = App.Response 200
         (inr {| Api.body_error := JS.Undefined;
                 Api.body_message := JS.Undefined;
                 Api.body_response := JS.Str "" |})
  /\ App.conversation
       (App.handle (App.Settled 0 (Scenario.answered "") 1500) Scenario.waiting)
     = [App.user_turn "hi" 1000; App.agent_turn (JS.Str "") 1500]
  /\ App.blank (Api.content (App.agent_turn (JS.Str "") 1500)) = true.
Proof. repeat split; reflexivity. Qed.

(** C3 (amended) — at every reachable state no turn of the user has a text
    that is empty after trimming; a final transcript that is empty after
    trimming, whether handed to [handleFinalTranscript] or delivered by the
    recognition object, leaves the whole state as it was: no turn is
    appended and the phase does not change. *)
Theorem no_blank_user_turn (this : App.VoiceCortexApp) :
  App.reachable this ->
  (forall turn : Api.Message,
     turn ∈ App.conversation this ->
     Api.role turn = "user" ->
     App.blank (Api.content turn) = false)
  /\ (forall (transcript : string) (now : Z),
        App.blank (JS.Str transcript) = true ->
        App.handleFinalTranscript transcript now this = this
        /\ App.handle (App.RecognitionResult [(transcript, true)] now) this
           = this).
Proof.
  intros Hreach. split.
  - pose proof (reachable_user_turns this Hreach) as Hall.
    rewrite Forall_forall in Hall. exact Hall.
  - intros transcript now Hb. simpl in Hb. apply negb_true_iff in Hb.
    split; [ by apply handleFinalTranscript_blank | ].
    cbn [App.handle]. unfold App.onresult. simpl.
    change ("" +:+ transcript) with transcript.
    destruct (JS.truthy_str transcript); [ | done ].
    by apply handleFinalTranscript_blank.
Qed.

Lemma no_blank_user_turn_witness :
  App.conversation
    (App.handle (App.RecognitionResult [("   ", true)] 1700) Scenario.waiting)
  = [App.user_turn "hi" 1000].
Proof.
  destruct (no_blank_user_turn Scenario.waiting) as [_ Hblank].
  - apply (run_reachable Scenario.to_processing Scenario.fresh);
      [ apply App.reachable_new | reflexivity ].
  - destruct (Hblank "   " 1700) as [_ Hsame]; [ reflexivity | ].
    rewrite Hsame. reflexivity.
Defined.

(** *** The agent turn of a successful exchange *)

(** A reply of the route with a 2xx status is a completion over some
    connection. *)
Lemma cortex_agent_success
    (connect : Snowflake.Config -> option string)
    (execute : Snowflake.Connection -> string -> list string ->
               string + option (list Snowflake.Row))
    (pool pool' : gmap string Snowflake.Connection)
    (req : Api.Request) (reply : Server.Reply) :
  Server.cortex_agent connect execute pool req = (pool', reply) ->
  App.ok (Server.status reply) = true ->
  exists connection result,
    execute connection Server.query [Api.agent req; System.prompt_of req]
    = inr result
    /\ reply = Server.json_success (Server.extractResponse result).
Proof.
  unfold Server.cortex_agent.
  destruct (Server.missing_fields req).
  { intros [= _ <-]. discriminate. }
  destruct (Server.getSnowflakeConnection connect pool
              (Server.connection_options req)) as [p [err | connection]].
  { intros [= _ <-]. discriminate. }
  intros [= _ <-]. unfold Server.complete, Server.executeQuery.
  fold (System.prompt_of req).
  destruct (execute connection Server.query
              [Api.agent req; System.prompt_of req]) as [err | result] eqn:He.
  { discriminate. }
  intros _. by exists connection, result.
Qed.

Lemma settled_success (i : nat) (request : Api.Request) (response : JS.value)
    (now : Z) (this : App.VoiceCortexApp) :
  App.inflight this !! i = Some (App.Fetching request) ->
  App.conversation
    (App.handle
       (App.Settled i (System.delivered (Server.json_success response)) now)
       this)
  = App.conversation this ++ [App.agent_turn response now].
Proof. intros Hi. cbn [App.handle]. rewrite Hi. reflexivity. Qed.

(** C4 (counterexample) — a completion with spaces around it becomes the
    agent turn with its spaces, and an empty completion becomes an agent
    turn with an empty text, not the placeholder. *)
Lemma completion_taken_verbatim :
  App.admissible Scenario.to_processing Scenario.fresh = true
  /\ JS.trim "  fine  " = "fine"
  /\ App.conversation
       (App.handle (App.Settled 0 (Scenario.answered "  fine  ") 1500)
          Scenario.waiting)
     = [App.user_turn "hi" 1000; App.agent_turn (JS.Str "  fine  ") 1500]
  /\ App.conversation
       (App.handle (App.Settled 0 (Scenario.answered "") 1500)
          Scenario.waiting)
     = [App.user_turn "hi" 1000; App.agent_turn (JS.Str "") 1500].
Proof. repeat split; reflexivity. Qed.

(** C4 (amended) — for every successful gateway call whose completion text
    is not empty, the text of the agent turn is that text as returned,
    without trimming; when the completion query yields no row, it is the
    placeholder 'No response from agent'. *)
Theorem agent_turn_text
    (connect : Snowflake.Config -> option string)
    (execute : Snowflake.Connection -> string -> list string ->
               string + option (list Snowflake.Row))
    (pool pool' : gmap string Snowflake.Connection)
    (request : Api.Request) (reply : Server.Reply)
    (i : nat) (now : Z) (this : App.VoiceCortexApp) :
  App.inflight this !! i = Some (App.Fetching request) ->
  Server.cortex_agent connect execute pool request = (pool', reply) ->
  App.ok (Server.status reply) = true ->
  let this' := App.handle (App.Settled i (System.delivered reply) now) this in
  exists connection result,
    execute connection Server.query
      [Api.agent request; System.prompt_of request] = inr result
    /\ (forall row rest text,
          result = Some (row :: rest) ->
          Snowflake.RESPONSE row = JS.Str text ->
          text <> "" ->
          App.conversation this'
          = App.conversation this ++ [App.agent_turn (JS.Str text) now])
    /\ (result = None \/ result = Some [] ->
        App.conversation this'
        = App.conversation this
            ++ [App.agent_turn (JS.Str "No response from agent") now]).
Proof.
  intros Hi Hserve Hok this'.
  destruct (cortex_agent_success _ _ _ _ _ _ Hserve Hok)
    as (connection & result & Hexec & ->).
  exists connection, result. split; [ exact Hexec | ].
  subst this'. rewrite (settled_success i request _ now this Hi).
  split.
  - intros row rest text -> Hrow _. simpl. by rewrite Hrow.
  - by intros [-> | ->].
Qed.

Lemma agent_turn_text_witness :
  App.conversation
    (App.handle (App.Settled 0 (Scenario.answered "  fine  ") 1500)
       Scenario.waiting)
  = App.conversation Scenario.waiting
      ++ [App.agent_turn (JS.Str "  fine  ") 1500].
Proof.
  destruct (agent_turn_text Scenario.accepts (Scenario.answers "  fine  ") ∅
              (Scenario.served "  fine  ").1 Scenario.first_request
              (Scenario.served "  fine  ").2 0%nat 1500 Scenario.waiting)
    as (connection & result & Hexec & Hrow & _).
  - reflexivity.
  - reflexivity.
  - reflexivity.
  - unfold Scenario.answers in Hexec. injection Hexec as <-.
    apply (Hrow {| Snowflake.RESPONSE := JS.Str "  fine  " |} [] "  fine  ");
      [ reflexivity | reflexivity | discriminate ].
Defined.

(** *** Failed exchanges *)

Lemma gateway_failure_rejects (outcome : App.FetchOutcome) :
  App.gateway_failure outcome = true
  <-> exists detail, App.sendToCortexAgent_settled outcome = inl detail.
Proof.
  destruct outcome as [error | status [error | data]]; simpl.
  - split; [ by exists error | done ].
  - rewrite orb_true_r. destruct (negb (App.ok status)); split; eauto.
  - rewrite orb_false_r. destruct (negb (App.ok status)).
    + split; eauto.
    + split; [ discriminate | intros [detail Hd]; discriminate ].
Qed.

(** C6 (counterexample) — the first exchange fails after the user has
    started a second capture: the apology is appended and the processing
    flag cleared, but the session is listening, not idle.  Besides, a 2xx
    response whose JSON body has no [response] field is not taken for a
    failure: the agent turn holds [undefined] and no apology. *)
Lemma failure_while_capturing :
  App.admissible
    (Scenario.to_processing ++ Scenario.second_capture
       ++ [App.Settled 0 (App.NetworkError "Failed to fetch") 1500])
    Scenario.fresh = true
  /\ App.gateway_failure (App.NetworkError "Failed to fetch") = true
  /\ App.phase
       (App.handle (App.Settled 0 (App.NetworkError "Failed to fetch") 1500)
          (App.run Scenario.second_capture Scenario.waiting))
     = App.listening
  /\ App.recognizing
       (App.handle (App.Settled 0 (App.NetworkError "Failed to fetch") 1500)
          (App.run Scenario.second_capture Scenario.waiting))
     = true
  /\ App.conversation
       (App.handle (App.Settled 0 (App.Response 200 (inr Scenario.no_fields)) 1500)
          Scenario.waiting)
     = [App.user_turn "hi" 1000; App.agent_turn JS.Undefined 1500].
Proof. repeat split; reflexivity. Qed.

(** C6 (amended) — for every gateway call that fails (network error,
    non-2xx status or a body that does not parse) the processing flag is
    cleared and the status line returns to ready, so that the session is
    idle unless a capture stream is running at that moment; exactly one
    agent turn with the fixed apology is appended; the error detail goes to
    a toast and the appended turn does not depend on it; no call is made
    again. *)
Theorem failed_exchange (i : nat) (request : Api.Request)
    (outcome : App.FetchOutcome) (now : Z) (this : App.VoiceCortexApp) :
  App.inflight this !! i = Some (App.Fetching request) ->
  App.gateway_failure outcome = true ->
  let this' := App.handle (App.Settled i outcome now) this in
  App.isProcessing this' = false
  /\ App.uiState this' = App.ui_ready
  /\ App.isListening this' = App.isListening this
  /\ (App.isListening this = false -> App.phase this' = App.idle)
  /\ App.conversation this'
     = App.conversation this ++ [App.agent_turn (JS.Str App.apology) now]
  /\ (exists detail,
        App.sendToCortexAgent_settled outcome = inl detail
        /\ App.toast this'
           = Some {| App.toast_message :=
                       "Error communicating with Cortex Agent: " +:+ detail;
                     App.toast_type := "error" |})
  /\ App.inflight this' = delete i (App.inflight this)
  /\ App.fetchLog this' = App.fetchLog this.
Proof.
  intros Hi Hfail this'.
  apply gateway_failure_rejects in Hfail as [detail Hdetail].
  subst this'. cbn [App.handle]. rewrite Hi.
  cbn [App.awaited_result]. rewrite Hdetail.
  pose proof (handleFinalTranscript_resume_spec (inl detail) now
                (App.set_inflight (delete i (App.inflight this)) this))
    as (H1 & H2 & H3 & _ & _ & H6 & H7 & H8 & H9).
  repeat split; try done.
  - intros Hl. unfold App.phase. rewrite H1, H3. simpl. by rewrite Hl.
  - by exists detail.
Qed.

Lemma failed_exchange_witness :
  App.phase
    (App.handle (App.Settled 0 (App.Response 500 (inl "Unexpected token")) 1500)
       Scenario.waiting)
  = App.idle.
Proof.
  destruct (failed_exchange 0%nat _ (App.Response 500 (inl "Unexpected token"))
              1500 Scenario.waiting eq_refl eq_refl)
    as (_ & _ & _ & Hidle & _).
  apply Hidle. reflexivity.
Defined.

(** *** Settings and dispatch *)

(** Every call made to the network names an account, a username and an
    agent. *)
Lemma reachable_fetchLog (this : App.VoiceCortexApp) :
  App.reachable this ->
  Forall (fun request => App.routed request = true) (App.fetchLog this).
Proof.
  induction 1 as [saved supported | this e Hr IH He].
  - destruct supported; constructor.
  - destruct (handle_fetchLog e this) as [-> | (Hv & t & now & ->)];
      [ exact IH | ].
    apply Forall_app. split; [ exact IH | ].
    constructor; [ | constructor ].
    rewrite validateSettings_truthy in Hv. exact Hv.
Qed.

Lemma delete_last_appended {A} (l : list A) (x : A) :
  (l ++ [x]) !! length l = Some x /\ delete (length l) (l ++ [x]) = l.
Proof.
  split; [ by apply list_lookup_middle | ].
  rewrite delete_middle. apply app_nil_r.
Qed.

(** A final transcript handled while the settings fail validation, with
    the rejection of [sendToCortexAgent] taken at once, as the [catch] and
    the [finally] of [handleFinalTranscript] do. *)
Lemma rejected_exchange (transcript : string) (asked answered : Z)
    (outcome : App.FetchOutcome) (this : App.VoiceCortexApp) :
  JS.truthy_str (App.validateSettings this) = false ->
  JS.truthy_str (JS.trim transcript) = true ->
  let this' :=
    App.handle (App.Settled (length (App.inflight this)) outcome answered)
      (App.handleFinalTranscript transcript asked this) in
  App.isProcessing this' = false
  /\ App.isListening this' = App.isListening this
  /\ App.inflight this' = App.inflight this
  /\ App.fetchLog this' = App.fetchLog this
  /\ App.conversation this'
     = App.conversation this
         ++ [App.user_turn transcript asked;
             App.agent_turn (JS.Str App.apology) answered]
  /\ App.toast this'
     = Some {| App.toast_message :=
                 "Error communicating with Cortex Agent: " +:+ App.incomplete;
               App.toast_type := "error" |}.
Proof.
  intros Hinvalid Hu this'.
  destruct (handleFinalTranscript_dispatch transcript asked this Hu)
    as (_ & Hl & _ & Hc & Hd).
  rewrite Hinvalid in Hd. destruct Hd as [Hi Hf].
  destruct (delete_last_appended (App.inflight this)
              (App.Rejected App.incomplete)) as [Hlook Hdel].
  subst this'. cbn [App.handle]. rewrite Hi, Hlook, Hdel.
  cbn [App.awaited_result].
  pose proof (handleFinalTranscript_resume_spec (inl App.incomplete) answered
                (App.set_inflight (App.inflight this)
                   (App.handleFinalTranscript transcript asked this)))
    as (H1 & _ & H3 & _ & _ & H6 & H7 & H8 & H9).
  cbn zeta in H1, H3, H6, H7, H8, H9.
  rewrite H1, H3, H6, H7, H8, H9. simpl.
  rewrite Hl, Hf, Hc, <- app_assoc. done.
Qed.

(** C7 (counterexample) — the settings are saved with a blank account
    while the first exchange is in flight: the session is in the processing
    phase, with its call to the gateway pending, although its settings fail
    validation. *)
Lemma processing_with_invalid_settings :
  App.admissible Scenario.invalidating Scenario.fresh = true
  /\ JS.truthy_str
       (App.validateSettings (App.run Scenario.invalidating Scenario.fresh))
     = false
  /\ App.phase (App.run Scenario.invalidating Scenario.fresh) = App.processing
  /\ App.inflight (App.run Scenario.invalidating Scenario.fresh)
     = [App.Fetching Scenario.first_request]
  /\ App.fetchLog (App.run Scenario.invalidating Scenario.fresh)
     = [Scenario.first_request].
Proof. repeat split; reflexivity. Qed.

(** C7 (amended) — at every reachable state every call made to the network
    so far was made with settings that passed validation, and while the
    settings fail validation no event makes a call and a start request does
    not start capture; a final transcript that arrives then is closed on the
    page without a call and without leaving the session in the processing
    phase: the user turn and the apology are appended, the error toast is
    shown and the exchanges in flight are as before.  Saving the settings
    never changes the phase nor the exchanges in flight, so that a session
    in the processing phase stays in it when its settings are saved with a
    blank account or username, and its settings then fail validation. *)
Theorem dispatch_requires_valid_settings (this : App.VoiceCortexApp) :
  App.reachable this ->
  (forall request : Api.Request,
     request ∈ App.fetchLog this -> App.routed request = true)
  /\ (JS.truthy_str (App.validateSettings this) = false ->
      (forall e : App.Event,
         App.fetchLog (App.handle e this) = App.fetchLog this)
      /\ (App.isListening this = false ->
          App.recognition (App.handle App.MicClick this)
          = App.recognition this
          /\ App.phase (App.handle App.MicClick this) = App.phase this)
      /\ (forall (transcript : string) (asked answered : Z)
                 (outcome : App.FetchOutcome),
            JS.truthy_str (JS.trim transcript) = true ->
            let this' :=
              App.handle
                (App.Settled (length (App.inflight this)) outcome answered)
                (App.handleFinalTranscript transcript asked this) in
            App.isProcessing this' = false
            /\ App.phase this'
               = (if App.isListening this then App.listening else App.idle)
            /\ App.inflight this' = App.inflight this
            /\ App.fetchLog this' = App.fetchLog this
            /\ App.conversation this'
               = App.conversation this
                   ++ [App.user_turn transcript asked;
                       App.agent_turn (JS.Str App.apology) answered]
            /\ App.toast this'
               = Some {| App.toast_message :=
                           "Error communicating with Cortex Agent: "
                             +:+ App.incomplete;
                         App.toast_type := "error" |}))
  /\ (forall inputs : App.Settings,
        let saved := App.saveSettingsData inputs this in
        App.phase saved = App.phase this
        /\ App.inflight saved = App.inflight this
        /\ App.fetchLog saved = App.fetchLog this
        /\ (JS.trim (App.account inputs) = ""
            \/ JS.trim (App.username inputs) = "" ->
            JS.truthy_str (App.validateSettings saved) = false)).
Proof.
  intros Hreach. split; [ | split ].
  - pose proof (reachable_fetchLog this Hreach) as Hall.
    rewrite Forall_forall in Hall. exact Hall.
  - intros Hinvalid. split; [ | split ].
    + intros e. destruct (handle_fetchLog e this) as [H | [Hv _]]; [ done | ].
      congruence.
    + intros Hl. cbn [App.handle]. unfold App.toggleListening. rewrite Hl.
      unfold App.phase.
      destruct (startListening_frame this) as (-> & -> & _).
      split; [ | done ].
      unfold App.startListening. rewrite Hinvalid.
      destruct (App.recognition this) as [r |] eqn:Hr; simpl; by rewrite Hr.
    + intros transcript asked answered outcome Hu this'.
      destruct (rejected_exchange transcript asked answered outcome this
                  Hinvalid Hu)
        as (Hp & Hl & Hi & Hf & Hc & Ht).
      fold this' in Hp, Hl, Hi, Hf, Hc, Ht.
      unfold App.phase. rewrite Hp, Hl. done.
  - intros inputs saved.
    destruct (saveSettingsData_frame inputs this)
      as (Hs & Hl & Hp & _ & Hi & Hf & _).
    fold saved in Hs, Hl, Hp, Hi, Hf.
    unfold App.phase. rewrite Hl, Hp.
    split; [ done | ]. split; [ done | ]. split; [ done | ].
    intros Hblank. rewrite validateSettings_truthy, Hs. simpl.
    destruct Hblank as [-> | ->]; [ done | ].
    by rewrite andb_false_r.
Qed.

Lemma dispatch_requires_valid_settings_witness :
  let invalid :=
    App.run (Scenario.to_listening
               ++ [App.SettingsClick; App.SettingsSave Scenario.blank_account])
      Scenario.fresh in
  App.fetchLog (App.handle (App.RecognitionResult [("hello", true)] 1200) invalid)
  = []
  /\ App.phase
       (App.handle (App.Settled 0 (App.NetworkError "unused") 1200)
          (App.handleFinalTranscript "hello" 1200 invalid))
     = App.listening
  /\ App.phase (App.run Scenario.invalidating Scenario.fresh) = App.processing.
Proof.
  cbv zeta.
  destruct (dispatch_requires_valid_settings
              (App.run (Scenario.to_listening
                          ++ [App.SettingsClick;
                              App.SettingsSave Scenario.blank_account])
                 Scenario.fresh))
    as (_ & Hinvalid & _).
  { apply run_reachable; [ apply App.reachable_new | reflexivity ]. }
  destruct Hinvalid as (Hnone & _ & Hclosed); [ reflexivity | ].
  destruct (Hclosed "hello" 1200 1200 (App.NetworkError "unused") eq_refl)
    as (_ & Hphase & _).
  split; [ rewrite Hnone; reflexivity | ].
  split; [ exact Hphase | ].
  destruct (dispatch_requires_valid_settings
              (App.run (Scenario.to_processing ++ [App.SettingsClick])
                 Scenario.fresh))
    as (_ & _ & Hsave).
  { apply run_reachable; [ apply App.reachable_new | reflexivity ]. }
  destruct (Hsave Scenario.blank_account) as (Hsaved & _).
  exact Hsaved.
Defined.

(** *** Settings saved during an exchange *)

Lemma settled_conversation (i : nat) (outcome : App.FetchOutcome) (now : Z)
    (this : App.VoiceCortexApp) :
  App.conversation (App.handle (App.Settled i outcome now) this)
  = match App.inflight this !! i with
    | Some a =>
        App.conversation this
          ++ [App.agent_turn
                (App.closing_text (App.awaited_result a outcome)) now]
    | None => App.conversation this
    end.
Proof.
  cbn [App.handle]. destruct (App.inflight this !! i) as [a |]; [ | done ].
  apply (handleFinalTranscript_resume_spec (App.awaited_result a outcome) now
           (App.set_inflight (delete i (App.inflight this)) this)).
Qed.

Lemma settled_same_session (i : nat) (outcome : App.FetchOutcome) (now : Z)
    (this other : App.VoiceCortexApp) :
  App.same_session this other ->
  App.same_session (App.handle (App.Settled i outcome now) this)
    (App.handle (App.Settled i outcome now) other).
Proof.
  intros (Hl & Hp & Hc & Hr & Hi & Hf). cbn [App.handle]. rewrite Hi.
  destruct (App.inflight this !! i) as [a |]; [ | by repeat split ].
  pose proof (handleFinalTranscript_resume_spec
                (App.awaited_result a outcome) now
                (App.set_inflight (delete i (App.inflight this)) this))
    as (H1 & _ & H3 & H4 & _ & H6 & H7 & H8 & _).
  pose proof (handleFinalTranscript_resume_spec
                (App.awaited_result a outcome) now
                (App.set_inflight (delete i (App.inflight this)) other))
    as (H1' & _ & H3' & H4' & _ & H6' & H7' & H8' & _).
  unfold App.same_session, App.recognizing in *.
  rewrite H1, H1', H3, H3', H4, H4', H6, H6', H7, H7', H8, H8'. simpl.
  by rewrite Hl, Hc, Hf, Hr.
Qed.

(** C8 — saving the settings leaves the exchanges in flight and the bodies
    already sent as they are, so an exchange in flight is answered by the
    server, and closed on the page, exactly as if the settings had not been
    saved; the next utterance is sent with the saved settings. *)
Theorem settings_snapshot
    (connect : Snowflake.Config -> option string)
    (execute : Snowflake.Connection -> string -> list string ->
               string + option (list Snowflake.Row))
    (pool : gmap string Snowflake.Connection)
    (inputs : App.Settings) (i : nat) (now : Z) (this : App.VoiceCortexApp) :
  let saved := App.saveSettingsData inputs this in
  App.inflight saved = App.inflight this
  /\ App.fetchLog saved = App.fetchLog this
  /\ (forall outcome : App.FetchOutcome,
        App.same_session (App.handle (App.Settled i outcome now) this)
          (App.handle (App.Settled i outcome now) saved))
  /\ (System.serve connect execute pool i now saved).1
     = (System.serve connect execute pool i now this).1
  /\ App.same_session (System.serve connect execute pool i now this).2
       (System.serve connect execute pool i now saved).2
  /\ (forall (transcript : string) (now' : Z),
        JS.truthy_str (JS.trim transcript) = true ->
        JS.truthy_str (App.validateSettings saved) = true ->
        App.fetchLog (App.handleFinalTranscript transcript now' saved)
        = App.fetchLog this
            ++ [App.request_body (App.form_settings inputs) transcript
                  (App.conversation this
                     ++ [App.user_turn transcript now'])]).
Proof.
  intros saved.
  destruct (saveSettingsData_frame inputs this)
    as (Hs & Hl & Hp & Hc & Hi & Hf & Hr).
  fold saved in Hs, Hl, Hp, Hc, Hi, Hf, Hr.
  assert (App.same_session this saved) as Hsame by by repeat split.
  split; [ exact Hi | ]. split; [ exact Hf | ].
  split; [ intros outcome; by apply settled_same_session | ].
  split; [ | split ].
  - unfold System.serve. rewrite Hi.
    destruct (App.inflight this !! i) as [[err | request] |]; try done.
    by destruct (Server.cortex_agent connect execute pool request).
  - unfold System.serve. rewrite Hi.
    destruct (App.inflight this !! i) as [[err | request] |] eqn:Hlook;
      try done.
    destruct (Server.cortex_agent connect execute pool request) as [p reply].
    by apply settled_same_session.
  - intros transcript now' Hu Hv.
    destruct (handleFinalTranscript_dispatch transcript now' saved Hu)
      as (_ & _ & _ & _ & Hd).
    rewrite Hv in Hd. destruct Hd as [_ Hd].
    by rewrite Hd, Hs, Hc, Hf.
Qed.

Lemma settings_snapshot_witness :
  App.fetchLog
    (App.handleFinalTranscript "next" 3000
       (App.saveSettingsData Scenario.other_account Scenario.waiting))
  = [Scenario.first_request;
     {| Api.account := "globex"; Api.username := "bob";
        Api.password := "hunter2"; Api.warehouse := "COMPUTE_WH";
        Api.database := "CORTEX_DB"; Api.schema := "AGENTS";
        Api.agent := "llama3"; Api.message := "next";
        Api.conversation :=
          Some [App.user_turn "hi" 1000; App.user_turn "next" 3000] |}].
Proof.
  destruct (settings_snapshot Scenario.accepts (Scenario.answers "fine") ∅
              Scenario.other_account 0%nat 1500 Scenario.waiting)
    as (_ & _ & _ & _ & _ & Hnext).
  rewrite Hnext; reflexivity.
Defined.

(** * Further properties of the page and of the server *)

(** ** More on strings *)

Lemma append_assoc (a b c : string) : (a +:+ b) +:+ c = a +:+ (b +:+ c).
Proof.
  induction a as [| x a IH]; [ reflexivity | ].
  change (String x ((a +:+ b) +:+ c) = String x (a +:+ (b +:+ c))).
  by rewrite IH.
Qed.

Lemma append_empty_r (a : string) : a +:+ "" = a.
Proof.
  induction a as [| x a IH]; [ reflexivity | ].
  change (String x (a +:+ "") = String x a). by rewrite IH.
Qed.

Lemma trimStart_trimmed (s : string) : Cases.trimmed_start (JS.trimStart s).
Proof.
  induction s as [| c s IH]; simpl; [ done | ].
  destruct (JS.is_ws c) eqn:Hc; [ exact IH | exact Hc ].
Qed.

Lemma trimStart_id (s : string) : Cases.trimmed_start s -> JS.trimStart s = s.
Proof. destruct s as [| c s]; simpl; [ done | ]. by intros ->. Qed.

Lemma trimEnd_trimmed_start (s : string) :
  Cases.trimmed_start s -> Cases.trimmed_start (JS.trimEnd s).
Proof.
  destruct s as [| c s]; simpl; [ done | ]. intros Hc.
  destruct (JS.trimEnd s); simpl; by rewrite ?Hc.
Qed.

Lemma trimEnd_idempotent (s : string) : JS.trimEnd (JS.trimEnd s) = JS.trimEnd s.
Proof.
  induction s as [| c s IH]; simpl; [ done | ].
  destruct (JS.trimEnd s) as [| d r] eqn:Hr.
  - destruct (JS.is_ws c) eqn:Hc; simpl; by rewrite ?Hc.
  - simpl. simpl in IH. destruct (JS.trimEnd r) as [| e r'] eqn:Hr'.
    + destruct (JS.is_ws d) eqn:Hd; [ discriminate | ].
      by injection IH as <-.
    + by rewrite IH.
Qed.

Lemma trim_idempotent (s : string) : JS.trim (JS.trim s) = JS.trim s.
Proof.
  unfold JS.trim.
  rewrite (trimStart_id (JS.trimEnd (JS.trimStart s))).
  - apply trimEnd_idempotent.
  - apply trimEnd_trimmed_start, trimStart_trimmed.
Qed.

Lemma trim_truthy (s : string) :
  JS.truthy_str (JS.trim s) = true -> JS.truthy_str s = true.
Proof. by destruct s. Qed.

(** ** Recognition results *)

Lemma transcripts_spec (results : list (string * bool)) (interim final : string) :
  App.transcripts results interim final
  = (interim +:+ Cases.interims results, final +:+ Cases.finals results).
Proof.
  revert interim final.
  induction results as [| [transcript isFinal] rest IH]; intros interim final.
  - simpl. by rewrite !append_empty_r.
  - simpl. destruct isFinal; rewrite IH, append_assoc; reflexivity.
Qed.

(** X1 — [onresult] hands to [handleFinalTranscript] the transcripts of the
    final results of the event, concatenated in order, and ignores the
    interim ones; when that text is blank nothing changes, otherwise the
    user turn that is appended holds exactly that text. *)
Theorem onresult_dispatches_finals (results : list (string * bool)) (now : Z)
    (this : App.VoiceCortexApp) :
  App.onresult results now this
  = (if JS.truthy_str (JS.trim (Cases.finals results))
     then App.handleFinalTranscript (Cases.finals results) now this
     else this)
  /\ App.conversation (App.onresult results now this)
     = (if JS.truthy_str (JS.trim (Cases.finals results))
        then App.conversation this
               ++ [App.user_turn (Cases.finals results) now]
        else App.conversation this).
Proof.
  assert (App.onresult results now this
          = (if JS.truthy_str (JS.trim (Cases.finals results))
             then App.handleFinalTranscript (Cases.finals results) now this
             else this)) as Heq.
  { unfold App.onresult. rewrite transcripts_spec.
    change ("" +:+ Cases.finals results) with (Cases.finals results).
    destruct (JS.truthy_str (JS.trim (Cases.finals results))) eqn:Hu.
    - by rewrite (trim_truthy _ Hu).
    - destruct (JS.truthy_str (Cases.finals results)); [ | done ].
      by apply handleFinalTranscript_blank. }
  split; [ exact Heq | ].
  rewrite Heq.
  destruct (JS.truthy_str (JS.trim (Cases.finals results))) eqn:Hu; [ | done ].
  apply (handleFinalTranscript_dispatch _ now this Hu).
Qed.

(** ** Saving the settings *)

Lemma or_trim_fixed (s d : string) :
  JS.trim d = d -> JS.trim (JS.or_ (JS.trim s) d) = JS.or_ (JS.trim s) d.
Proof.
  intros Hd. unfold JS.or_.
  destruct (JS.truthy_str (JS.trim s)); [ apply trim_idempotent | exact Hd ].
Qed.

Lemma or_or (s d : string) : JS.or_ (JS.or_ s d) d = JS.or_ s d.
Proof. unfold JS.or_. destruct s; simpl; [ by destruct d | done ]. Qed.

Lemma form_settings_idempotent (inputs : App.Settings) :
  App.form_settings (App.form_settings inputs) = App.form_settings inputs.
Proof.
  unfold App.form_settings. simpl.
  rewrite !trim_idempotent.
  rewrite !or_trim_fixed by reflexivity.
  by rewrite !or_or.
Qed.

(** X2 — the settings stored by [saveSettingsData] pass validation exactly
    when the account and the username typed in the form are not blank: the
    agent, like the warehouse, the database and the schema, is never stored
    empty. *)
Theorem saved_settings_valid_iff (inputs : App.Settings)
    (this : App.VoiceCortexApp) :
  let saved := App.settings (App.saveSettingsData inputs this) in
  (JS.truthy_str (App.validateSettings (App.saveSettingsData inputs this))
   = true
   <-> JS.trim (App.account inputs) <> ""
       /\ JS.trim (App.username inputs) <> "")
  /\ App.agent saved <> ""
  /\ App.warehouse saved <> ""
  /\ App.database saved <> ""
  /\ App.schema saved <> "".
Proof.
  intros saved.
  destruct (saveSettingsData_frame inputs this) as (Hs & _).
  subst saved. rewrite validateSettings_truthy, Hs. simpl.
  assert (forall s d, JS.truthy_str d = true -> JS.or_ s d <> "") as Hor.
  { intros s d Hd. apply truthy_str_true. by apply or_truthy. }
  split; [ | repeat split; apply Hor; reflexivity ].
  rewrite (or_truthy _ "MY_AGENT" eq_refl), andb_true_r.
  rewrite andb_true_iff, !truthy_str_true. tauto.
Qed.

Lemma saveSettingsData_eq (inputs : App.Settings) (this : App.VoiceCortexApp) :
  App.saveSettingsData inputs this
  = {| App.recognition :=
         App.set_lang (App.language inputs) <$> App.recognition this;
       App.isListening := App.isListening this;
       App.isProcessing := App.isProcessing this;
       App.conversation := App.conversation this;
       App.settings := App.form_settings inputs;
       App.uiState := App.uiState this;
       App.toast :=
         Some {| App.toast_message := "Settings saved successfully!";
                 App.toast_type := "success" |};
       App.settingsModal := false;
       App.inflight := App.inflight this;
       App.fetchLog := App.fetchLog this |}.
Proof.
  destruct this as [[r |] l p c s u t m i f]; reflexivity.
Qed.

(** X3 — saving again the values that a save has stored changes nothing:
    the stored settings are already trimmed and completed with their
    defaults, and the page is left exactly as the first save left it. *)
Theorem saveSettingsData_idempotent (inputs : App.Settings)
    (this : App.VoiceCortexApp) :
  App.saveSettingsData
    (App.settings (App.saveSettingsData inputs this))
    (App.saveSettingsData inputs this)
  = App.saveSettingsData inputs this.
Proof.
  rewrite (saveSettingsData_eq inputs this). cbn [App.settings].
  rewrite saveSettingsData_eq. cbn -[App.form_settings].
  rewrite form_settings_idempotent.
  by destruct (App.recognition this) as [[] |].
Qed.

(** ** Ending a capture *)






(** X5 — an error of the recognition object never touches the flags, the
    turns, the exchanges in flight, the calls made, the settings or the
    recognition object; 'aborted' changes nothing at all, 'no-speech' only
    returns the status line to ready without any toast, and every other
    error shows its code in an error toast and returns the status line to
    ready. *)
Theorem recognition_error (error : string) (this : App.VoiceCortexApp) :
  let this' := App.handle (App.RecognitionError error) this in
  App.same_session this this'
  /\ App.settings this' = App.settings this
  /\ App.recognition this' = App.recognition this
  /\ (error = "aborted" -> this' = this)
  /\ (error = "no-speech" ->
      App.toast this' = App.toast this /\ App.uiState this' = App.ui_ready)
  /\ (error <> "aborted" -> error <> "no-speech" ->
      App.toast this'
      = Some {| App.toast_message := "Speech recognition error: " +:+ error;
                App.toast_type := "error" |}
      /\ App.uiState this' = App.ui_ready).
Proof.
  intros this'. subst this'. cbn [App.handle]. unfold App.onerror.
  destruct (String.eqb_spec error "no-speech") as [-> | Hns].
  { repeat split; try done. }
  destruct (String.eqb_spec error "aborted") as [-> | Hab]; simpl.
  { repeat split; try done. }
  repeat split; try done.
Qed.

Lemma recognition_error_witness :
  App.toast (App.handle (App.RecognitionError "network") Scenario.capturing)
  = Some {| App.toast_message := "Speech recognition error: network";
            App.toast_type := "error" |}.
Proof.
  destruct (recognition_error "network" Scenario.capturing)
    as (_ & _ & _ & _ & _ & Hother).
  destruct Hother as [Htoast _]; [ discriminate | discriminate | ].
  exact Htoast.
Defined.

(** ** Bookkeeping of the exchanges *)

(** What an event does to the exchanges in flight, the processing flag and
    the calls made: nothing, or it opens an exchange, or it closes one. *)
Lemma handle_inflight (e : App.Event) (this : App.VoiceCortexApp) :
  (App.inflight (App.handle e this) = App.inflight this
   /\ App.isProcessing (App.handle e this) = App.isProcessing this
   /\ App.fetchLog (App.handle e this) = App.fetchLog this)
  \/ (App.isProcessing (App.handle e this) = true
      /\ ((App.inflight (App.handle e this)
           = App.inflight this ++ [App.Rejected App.incomplete]
           /\ App.fetchLog (App.handle e this) = App.fetchLog this)
          \/ exists request,
               App.inflight (App.handle e this)
               = App.inflight this ++ [App.Fetching request]
               /\ App.fetchLog (App.handle e this)
                  = App.fetchLog this ++ [request]))
  \/ (App.isProcessing (App.handle e this) = false
      /\ App.fetchLog (App.handle e this) = App.fetchLog this
      /\ exists i,
           App.inflight (App.handle e this) = delete i (App.inflight this)).
Proof.
  assert (forall that : App.VoiceCortexApp,
            App.inflight that = App.inflight this
            /\ App.isProcessing that = App.isProcessing this
            /\ App.fetchLog that = App.fetchLog this ->
            App.inflight that = App.inflight this
            /\ App.isProcessing that = App.isProcessing this
            /\ App.fetchLog that = App.fetchLog this) as Hsame by done.
  destruct e; cbn [App.handle].
  - left. unfold App.toggleListening. destruct (App.isListening this).
    + destruct (stopListening_frame this) as (_ & ? & _ & _ & ? & ? & _).
      by apply Hsame.
    + destruct (startListening_frame this) as (_ & ? & _ & _ & ? & ?).
      by apply Hsame.
  - left. destruct (stopListening_frame this) as (_ & ? & _ & _ & ? & ? & _).
    by apply Hsame.
  - left. destruct (App.settingsModal this); [ done | ].
    destruct (App.isListening this); [ | done ].
    destruct (stopListening_frame this) as (_ & ? & _ & _ & ? & ? & _).
    by apply Hsame.
  - left. by destruct confirmed.
  - by left.
  - by left.
  - left.
    destruct (saveSettingsData_frame inputs this) as (_ & _ & ? & _ & ? & ? & _).
    by apply Hsame.
  - by left.
  - destruct (onresult_cases results now this) as [-> | (t & Ht & ->)];
      [ by left | ].
    right; left.
    destruct (handleFinalTranscript_dispatch t now this Ht)
      as (Hp & _ & _ & _ & Hd).
    split; [ exact Hp | ].
    destruct (JS.truthy_str (App.validateSettings this)).
    + right. eexists. exact Hd.
    + by left.
  - left. unfold App.onerror.
    destruct (String.eqb error "no-speech"); [ done | ].
    by destruct (negb (String.eqb error "aborted")).
  - left. destruct (onend_frame this) as (_ & ? & ? & ? & _).
    by apply Hsame.
  - destruct (App.inflight this !! i) as [a |]; [ | by left ].
    right; right.
    pose proof (handleFinalTranscript_resume_spec
                  (App.awaited_result a outcome) now
                  (App.set_inflight (delete i (App.inflight this)) this))
      as (H1 & _ & _ & _ & _ & H6 & H7 & _).
    split; [ exact H1 | ]. split; [ exact H7 | ].
    exists i. exact H6.
Qed.

(** X6 — at every reachable state, the processing flag is only set while
    an exchange is in flight, and every exchange in flight that went to the
    network is in the log of the calls made: the page never waits for a call
    it did not make. *)
Theorem exchanges_in_flight (this : App.VoiceCortexApp) :
  App.reachable this ->
  (App.isProcessing this = true -> App.inflight this <> [])
  /\ (forall request : Api.Request,
        App.Fetching request ∈ App.inflight this ->
        request ∈ App.fetchLog this).
Proof.
  induction 1 as [saved supported | this e Hr [IHp IHf] He].
  - destruct supported; split; try done; intros request Hin; inversion Hin.
  - destruct (handle_inflight e this)
      as [(-> & -> & ->) | [(Hp & Hopen) | (Hp & -> & i & ->)]].
    + by split.
    + split.
      * intros _.
        destruct Hopen as [[-> _] | (request & -> & _)];
          by destruct (App.inflight this).
      * intros request Hin.
        destruct Hopen as [[Hi ->] | (sent & Hi & ->)]; rewrite Hi in Hin;
          apply elem_of_app in Hin as [Hin | Hin].
        -- by apply IHf.
        -- apply list_elem_of_singleton in Hin. discriminate.
        -- apply elem_of_app. left. by apply IHf.
        -- apply list_elem_of_singleton in Hin. injection Hin as ->.
           apply elem_of_app. right. by apply list_elem_of_singleton.
    + split; [ congruence | ].
      intros request Hin. apply IHf.
      by apply list_elem_of_delete_inv in Hin.
Qed.

Lemma exchanges_in_flight_witness :
  Scenario.first_request ∈ App.fetchLog Scenario.waiting.
Proof.
  destruct (exchanges_in_flight Scenario.waiting) as [_ Hlogged].
  - apply (run_reachable Scenario.to_processing Scenario.fresh);
      [ apply App.reachable_new | reflexivity ].
  - apply Hlogged. apply list_elem_of_singleton. reflexivity.
Defined.

(** X7 — at every reachable state every request sent to the gateway carries
    its own message as the last entry of its conversation; hence the prompt
    the server assembles for it is never the message alone: it lists at most
    four earlier turns, then the message as a line of the history, then the
    message again. *)
Theorem sent_history_ends_with_message (this : App.VoiceCortexApp) :
  App.reachable this ->
  forall request : Api.Request,
    request ∈ App.fetchLog this ->
    exists (before earlier : list Api.Message) (now : Z),
      Api.conversation request
      = Some (before ++ [App.user_turn (Api.message request) now])
      /\ earlier = drop (length before - 4) before
      /\ System.prompt_of request
         = "Previous conversation:" +:+ JS.nl
             +:+ JS.join JS.nl
                   (Server.render
                      <$> (earlier
                             ++ [App.user_turn (Api.message request) now]))
             +:+ JS.nl +:+ JS.nl +:+ "User: " +:+ Api.message request
             +:+ JS.nl +:+ JS.nl +:+ "Assistant:".
Proof.
  induction 1 as [saved supported | this e Hr IH He]; intros request Hin.
  - destruct supported; inversion Hin.
  - destruct (handle_fetchLog e this) as [Hsame | (_ & t & now & Hsent)].
    + rewrite Hsame in Hin. by apply IH.
    + rewrite Hsent in Hin. apply elem_of_app in Hin as [Hin | Hin];
        [ by apply IH | ].
      apply list_elem_of_singleton in Hin. subst request.
      exists (App.conversation this),
        (drop (length (App.conversation this) - 4) (App.conversation this)),
        now.
      split; [ reflexivity | ]. split; [ reflexivity | ].
      unfold System.prompt_of. cbn [Api.conversation Api.message App.request_body].
      destruct (fullPrompt_history
                  (App.conversation this ++ [App.user_turn t now]) t)
        as (Hprompt & _).
      { by destruct (App.conversation this). }
      rewrite Hprompt, length_app. cbn [length].
      rewrite drop_app_le by lia.
      by replace (length (App.conversation this) + 1 - 5)%nat
        with (length (App.conversation this) - 4)%nat by lia.
Qed.

Lemma sent_history_ends_with_message_witness :
  exists (before earlier : list Api.Message) (now : Z),
    Api.conversation Scenario.first_request
    = Some (before ++ [App.user_turn (Api.message Scenario.first_request) now])
    /\ earlier = drop (length before - 4) before
    /\ System.prompt_of Scenario.first_request
       = "Previous conversation:" +:+ JS.nl
           +:+ JS.join JS.nl
                 (Server.render
                    <$> (earlier
                           ++ [App.user_turn
                                 (Api.message Scenario.first_request) now]))
           +:+ JS.nl +:+ JS.nl +:+ "User: "
           +:+ Api.message Scenario.first_request
           +:+ JS.nl +:+ JS.nl +:+ "Assistant:".
Proof.
  apply (sent_history_ends_with_message Scenario.waiting).
  - apply (run_reachable Scenario.to_processing Scenario.fresh);
      [ apply App.reachable_new | reflexivity ].
  - apply list_elem_of_singleton. reflexivity.
Defined.

(** X8 — at every reachable state every turn was written by the user or by
    the agent: a turn of the user holds a string and is rendered by the
    server as 'User: ' followed by it, every other turn is a turn of the
    agent and is rendered as 'Assistant: ' followed by its text. *)
Theorem turns_have_two_roles (this : App.VoiceCortexApp) :
  App.reachable this ->
  forall turn : Api.Message,
    turn ∈ App.conversation this ->
    (exists text, Api.role turn = "user" /\ Api.content turn = JS.Str text
                  /\ Server.render turn = "User: " +:+ text)
    \/ (Api.role turn = "agent"
        /\ Server.render turn
           = "Assistant: " +:+ JS.template (Api.content turn)).
Proof.
  induction 1 as [saved supported | this e Hr IH He]; intros turn Hin.
  - destruct supported; inversion Hin.
  - destruct (handle_conversation e this)
      as [Hc | [Hc | [(t & now & _ & Hc) | (v & now & Hc)]]];
      rewrite Hc in Hin.
    + by apply IH.
    + inversion Hin.
    + apply elem_of_app in Hin as [Hin | Hin]; [ by apply IH | ].
      apply list_elem_of_singleton in Hin. subst turn. left. by exists t.
    + apply elem_of_app in Hin as [Hin | Hin]; [ by apply IH | ].
      apply list_elem_of_singleton in Hin. subst turn. by right.
Qed.

Lemma turns_have_two_roles_witness :
  (exists text,
     Api.role (App.user_turn "hi" 1000) = "user"
     /\ Api.content (App.user_turn "hi" 1000) = JS.Str text
     /\ Server.render (App.user_turn "hi" 1000) = "User: " +:+ text)
  \/ (Api.role (App.user_turn "hi" 1000) = "agent"
      /\ Server.render (App.user_turn "hi" 1000)
         = "Assistant: " +:+ JS.template (Api.content (App.user_turn "hi" 1000))).
Proof.
  apply (turns_have_two_roles Scenario.waiting).
  - apply (run_reachable Scenario.to_processing Scenario.fresh);
      [ apply App.reachable_new | reflexivity ].
  - apply list_elem_of_singleton. reflexivity.
Defined.

(** ** A browser without speech recognition *)

Lemma inert_step (e : App.Event) (this : App.VoiceCortexApp) :
  App.recognition this = None ->
  App.inflight this = [] ->
  App.enabled e this = true ->
  App.recognition (App.handle e this) = None
  /\ App.inflight (App.handle e this) = []
  /\ App.isListening (App.handle e this) = App.isListening this
  /\ App.isProcessing (App.handle e this) = App.isProcessing this
  /\ App.fetchLog (App.handle e this) = App.fetchLog this
  /\ (App.conversation (App.handle e this) = App.conversation this
      \/ App.conversation (App.handle e this) = []).
Proof.
  intros Hrec Hin He.
  destruct this as [r l p c s u t m i f]. simpl in Hrec, Hin. subst r i.
  destruct e; try discriminate He; cbn [App.handle].
  - destruct l; repeat split; by left.
  - repeat split; by left.
  - destruct m, l; repeat split; by left.
  - destruct confirmed; repeat split; by (left + right).
  - repeat split; by left.
  - repeat split; by left.
  - repeat split; by left.
Qed.

(** X9 — in a browser without speech recognition the page is inert: no
    sequence of events ever makes it listen or process, append a turn, open
    an exchange or call the network, and the microphone only shows an
    error. *)
Theorem unsupported_browser_is_inert (saved : option App.Settings)
    (events : list App.Event) :
  let page := App.constructor saved false in
  App.admissible events page = true ->
  App.recognition (App.run events page) = None
  /\ App.phase (App.run events page) = App.idle
  /\ App.conversation (App.run events page) = []
  /\ App.inflight (App.run events page) = []
  /\ App.fetchLog (App.run events page) = []
  /\ App.toast (App.handle App.MicClick (App.run events page))
     = Some {| App.toast_message := "Speech recognition is not available";
               App.toast_type := "error" |}.
Proof.
  intros page.
  assert (forall this : App.VoiceCortexApp,
            App.recognition this = None -> App.inflight this = [] ->
            App.isListening this = false -> App.isProcessing this = false ->
            App.fetchLog this = [] -> App.conversation this = [] ->
            App.admissible events this = true ->
            App.recognition (App.run events this) = None
            /\ App.inflight (App.run events this) = []
            /\ App.isListening (App.run events this) = false
            /\ App.isProcessing (App.run events this) = false
            /\ App.fetchLog (App.run events this) = []
            /\ App.conversation (App.run events this) = []) as Hinert.
  { induction events as [| e rest IH]; intros this Hr Hi Hl Hp Hf Hc Ha.
    - done.
    - simpl in Ha. apply andb_true_iff in Ha as [He Ha].
      destruct (inert_step e this Hr Hi He) as (Hr' & Hi' & Hl' & Hp' & Hf' & Hc').
      apply (IH (App.handle e this)); try congruence.
      destruct Hc'; congruence. }
  intros Ha.
  destruct (Hinert page) as (Hr & Hi & Hl & Hp & Hf & Hc); try done.
  repeat split; try done.
  - unfold App.phase. by rewrite Hp, Hl.
  - cbn [App.handle]. unfold App.toggleListening, App.startListening.
    by rewrite Hl, Hr.
Qed.

Lemma unsupported_browser_is_inert_witness :
  App.phase
    (App.run [App.MicClick; App.SettingsSave Scenario.configured; App.MicClick]
       (App.constructor None false))
  = App.idle.
Proof.
  apply (unsupported_browser_is_inert None
           [App.MicClick; App.SettingsSave Scenario.configured; App.MicClick]).
  reflexivity.
Defined.

(** ** A whole exchange *)

(** X10 — on a page that is not capturing and whose settings are valid, a
    whole exchange (microphone, start of the capture, one final utterance
    that is not blank, end of the stream, a 200 answer of the gateway)
    appends exactly the user turn and then the agent turn with the response
    as received, makes exactly one call, carrying the settings of the page
    with the utterance, leaves the other exchanges in flight as they were,
    and brings the page back to idle with the status line on ready. *)
Theorem exchange_round_trip (this : App.VoiceCortexApp)
    (r : App.SpeechRecognition) (utterance : string) (response : JS.value)
    (asked answered : Z) :
  App.recognition this = Some r ->
  App.started r = false ->
  App.isListening this = false ->
  JS.truthy_str (App.validateSettings this) = true ->
  JS.truthy_str (JS.trim utterance) = true ->
  let events :=
    Cases.exchange (length (App.inflight this)) utterance response
      asked answered in
  let this' := App.run events this in
  App.admissible events this = true
  /\ App.conversation this'
     = App.conversation this
         ++ [App.user_turn utterance asked; App.agent_turn response answered]
  /\ App.fetchLog this'
     = App.fetchLog this
         ++ [App.request_body (App.settings this) utterance
               (App.conversation this ++ [App.user_turn utterance asked])]
  /\ App.inflight this' = App.inflight this
  /\ App.settings this' = App.settings this
  /\ App.phase this' = App.idle
  /\ App.recognizing this' = false
  /\ App.uiState this' = App.ui_ready.
Proof.
  intros Hrec Hst Hl Hv Hu events this'. subst events this'.
  pose proof (trim_truthy _ Hu) as Hne.
  destruct (delete_last_appended (App.inflight this)
              (App.Fetching
                 (App.request_body (App.settings this) utterance
                    (App.conversation this
                       ++ [App.user_turn utterance asked]))))
    as [Hlook Hdel].
  pose proof (length_app (App.inflight this)
                [App.Fetching
                   (App.request_body (App.settings this) utterance
                      (App.conversation this
                         ++ [App.user_turn utterance asked]))]) as Hlen.
  rewrite validateSettings_truthy in Hv.
  apply andb_true_iff in Hv as [Hv Hg]. apply andb_true_iff in Hv as [Ha Hn].
  destruct this as [rec l p c s u t m i f].
  destruct r as [lang started stopRequested].
  simpl in Hrec, Hst, Hl, Ha, Hn, Hg, Hlook, Hdel, Hlen. subst rec started l.
  unfold Cases.exchange, App.run, App.admissible.
  cbn [foldl App.handle App.enabled].
  unfold App.toggleListening, App.startListening, App.validateSettings,
    JS.and_, App.onresult, App.handleFinalTranscript, App.sendToCortexAgent.
  simpl. rewrite Ha, Hn, Hg. simpl.
  change ("" +:+ utterance) with utterance. rewrite Hne, Hu. simpl.
  rewrite Ha, Hn, Hg. simpl.
  unfold App.request_body, App.user_turn, App.agent_turn in *. simpl in *.
  rewrite ?Hlen, ?Hlook, ?Hdel. simpl.
  rewrite bool_decide_eq_true_2 by lia.
  rewrite <- app_assoc. by repeat split.
Qed.

Lemma exchange_round_trip_witness :
  App.conversation
    (App.run (Cases.exchange 0 "hi" (JS.Str "hello") 1000 1500) Scenario.fresh)
  = [App.user_turn "hi" 1000; App.agent_turn (JS.Str "hello") 1500].
Proof.
  pose proof (exchange_round_trip Scenario.fresh
                {| App.lang := "en-US"; App.started := false;
                   App.stopRequested := false |}
                "hi" (JS.Str "hello") 1000 1500
                eq_refl eq_refl eq_refl eq_refl eq_refl)
    as (_ & Hconv & _).
  exact Hconv.
Defined.

(** ** Settings without a password *)

(** X11 — the page does not require a password: with settings that pass
    validation but hold an empty password, an utterance is still sent to
    the gateway.  The server then refuses the request with status 400
    without touching its pool, and the page closes the exchange with the
    apology; the toast only reads 'API error: 400', because the refusal of
    the server carries its explanation in the [error] field, which the page
    does not read. *)
Theorem empty_password_exchange
    (connect : Snowflake.Config -> option string)
    (execute : Snowflake.Connection -> string -> list string ->
               string + option (list Snowflake.Row))
    (pool : gmap string Snowflake.Connection)
    (this : App.VoiceCortexApp) (utterance : string) (asked answered : Z) :
  JS.truthy_str (App.validateSettings this) = true ->
  App.password (App.settings this) = "" ->
  JS.truthy_str (JS.trim utterance) = true ->
  let sent := App.handleFinalTranscript utterance asked this in
  let served :=
    System.serve connect execute pool (length (App.inflight this)) answered
      sent in
  App.fetchLog sent
  = App.fetchLog this
      ++ [App.request_body (App.settings this) utterance
            (App.conversation this ++ [App.user_turn utterance asked])]
  /\ served.1 = pool
  /\ App.conversation served.2
     = App.conversation this
         ++ [App.user_turn utterance asked;
             App.agent_turn (JS.Str App.apology) answered]
  /\ App.toast served.2
     = Some {| App.toast_message :=
                 "Error communicating with Cortex Agent: API error: 400";
               App.toast_type := "error" |}
  /\ App.isProcessing served.2 = false.
Proof.
  intros Hv Hpw Hu sent served.
  destruct (handleFinalTranscript_dispatch utterance asked this Hu)
    as (_ & _ & _ & Hc & Hd).
  rewrite Hv in Hd. destruct Hd as [Hi Hf]. fold sent in Hc, Hi, Hf.
  split; [ exact Hf | ].
  destruct (delete_last_appended (App.inflight this)
              (App.Fetching
                 (App.request_body (App.settings this) utterance
                    (App.conversation this
                       ++ [App.user_turn utterance asked]))))
    as [Hlook Hdel].
  assert (Server.cortex_agent connect execute pool
            (App.request_body (App.settings this) utterance
               (App.conversation this ++ [App.user_turn utterance asked]))
          = (pool, Server.json_error 400 "Missing required fields" JS.Undefined))
    as Hrefused.
  { unfold Server.cortex_agent, Server.missing_fields. simpl. rewrite Hpw.
    simpl. by rewrite !orb_true_r. }
  subst served. unfold System.serve. rewrite Hi, Hlook, Hrefused.
  cbn [fst snd App.handle]. rewrite Hi, Hlook.
  pose proof (handleFinalTranscript_resume_spec
                (App.awaited_result
                   (App.Fetching
                      (App.request_body (App.settings this) utterance
                         (App.conversation this
                            ++ [App.user_turn utterance asked])))
                   (System.delivered
                      (Server.json_error 400 "Missing required fields"
                         JS.Undefined)))
                answered
                (App.set_inflight
                   (delete (length (App.inflight this))
                      (App.inflight this
                         ++ [App.Fetching
                               (App.request_body (App.settings this) utterance
                                  (App.conversation this
                                     ++ [App.user_turn utterance asked]))]))
                   sent))
    as (H1 & _ & _ & _ & _ & _ & _ & H8 & H9).
  split; [ done | ]. split; [ | split; [ | exact H1 ] ].
  - rewrite H8. cbn [App.conversation App.set_inflight]. rewrite Hc.
    by rewrite <- app_assoc.
  - rewrite H9. reflexivity.
Qed.

Lemma empty_password_exchange_witness :
  App.toast
    (System.serve Scenario.accepts (Scenario.answers "fine") ∅ 0 1500
       (App.handleFinalTranscript "hi" 1000
          (App.constructor (Some Cases.no_password) true))).2
  = Some {| App.toast_message :=
              "Error communicating with Cortex Agent: API error: 400";
            App.toast_type := "error" |}.
Proof.
  pose proof (empty_password_exchange Scenario.accepts
                (Scenario.answers "fine") ∅
                (App.constructor (Some Cases.no_password) true) "hi" 1000 1500
                eq_refl eq_refl eq_refl)
    as (_ & _ & _ & Htoast & _).
  exact Htoast.
Defined.

(** ** Replies of the completion route *)

Section Route.

Variable connect : Snowflake.Config -> option string.
Variable execute :
  Snowflake.Connection -> string -> list string ->
  string + option (list Snowflake.Row).

Implicit Types (pool : gmap string Snowflake.Connection) (req : Api.Request).

(** X12 — for a request whose body was parsed, the completion route
    answers with status 200, 400 or 500 and nothing else.  It answers 400
    exactly when the account, the username, the password, the agent or the
    message is missing, and then neither connects nor touches the pool.
    Otherwise the pool is what [getSnowflakeConnection] leaves; the route
    answers 500 exactly when [getSnowflakeConnection] rejects (which it does
    exactly when the key is not in the pool and the connection fails) or
    when the statement, executed over the connection obtained with the
    agent and the prompt as binds, fails, and the message is that of the
    error; it answers 200 exactly when that statement succeeded, with the
    response extracted from its rows. *)
Theorem cortex_agent_replies pool req :
  let served := Server.cortex_agent connect execute pool req in
  let options := Server.connection_options req in
  let got := Server.getSnowflakeConnection connect pool options in
  let binds :=
    [Api.agent req;
     Server.fullPrompt (Api.conversation req) (Api.message req)] in
  (Server.status served.2 = 400 <-> Server.missing_fields req = true)
  /\ (Server.missing_fields req = true ->
      served
      = (pool, Server.json_error 400 "Missing required fields" JS.Undefined))
  /\ (Server.status served.2 = 200
      \/ Server.status served.2 = 400
      \/ Server.status served.2 = 500)
  /\ (Server.missing_fields req = false -> served.1 = got.1)
  /\ (forall err : string,
        got.2 = inl err
        <-> pool !! Server.pool_key options = None
            /\ connect options = Some err)
  /\ (Server.status served.2 = 500 <->
      Server.missing_fields req = false
      /\ exists err : string,
           served.2
           = Server.json_error 500 "Internal server error" (JS.Str err)
           /\ (got.2 = inl err
               \/ exists connection : Snowflake.Connection,
                    got.2 = inr connection
                    /\ execute connection Server.query binds = inl err))
  /\ (Server.status served.2 = 200 <->
      Server.missing_fields req = false
      /\ exists (connection : Snowflake.Connection)
                (result : option (list Snowflake.Row)),
           got.2 = inr connection
           /\ execute connection Server.query binds = inr result
           /\ served.2 = Server.json_success (Server.extractResponse result)).
Proof.
  intros served options got binds.
  assert (forall err : string,
            got.2 = inl err
            <-> pool !! Server.pool_key options = None
                /\ connect options = Some err) as Hrejects.
  { intros err. subst got. unfold Server.getSnowflakeConnection.
    destruct (pool !! Server.pool_key options) as [cached |].
    - simpl. split; [ discriminate | intros [? _]; discriminate ].
    - destruct (connect options) as [err' |]; simpl.
      + split; [ intros [= ->]; done | intros [_ [= ->]]; done ].
      + split; [ discriminate | intros [_ ?]; discriminate ]. }
  subst served. unfold Server.cortex_agent.
  destruct (Server.missing_fields req) eqn:Hm.
  { simpl. split; [ done | ]. split; [ done | ]. split; [ by right; left | ].
    split; [ discriminate | ]. split; [ exact Hrejects | ].
    split; (split; [ discriminate | intros [? _]; discriminate ]). }
  fold options. fold got. clear Hm.
  destruct got as [pool' [err | connection]] eqn:Hget; simpl.
  { split; [ split; discriminate | ]. split; [ discriminate | ].
    split; [ by right; right | ]. split; [ done | ].
    split; [ exact Hrejects | ].
    split.
    - split; [ intros _ | done ].
      split; [ done | ]. exists err. split; [ done | by left ].
    - split; [ discriminate | ].
      intros (_ & c & r & Hc & _). discriminate. }
  unfold Server.complete, Server.executeQuery. fold binds.
  destruct (execute connection Server.query binds) as [err | result] eqn:Hex;
    simpl.
  - split; [ split; discriminate | ]. split; [ discriminate | ].
    split; [ by right; right | ]. split; [ done | ].
    split; [ exact Hrejects | ].
    split.
    + split; [ intros _ | done ].
      split; [ done | ]. exists err. split; [ done | ].
      right. by exists connection.
    + split; [ discriminate | ].
      intros (_ & c & r & [= <-] & Hr & _). congruence.
  - split; [ split; discriminate | ]. split; [ discriminate | ].
    split; [ by left | ]. split; [ done | ].
    split; [ exact Hrejects | ].
    split.
    + split; [ discriminate | ].
      intros (_ & e & He & _). discriminate.
    + split; [ intros _ | done ].
      split; [ done | ]. by exists connection, result.
Qed.

(** X13 — a connection that fails is not stored: the pool is left as it
    was, so that the next request for the same account and username
    connects again; the route answers 500 with the message of the failure,
    and that message is the detail the page shows (or 'API error: 500' when
    the message is empty). *)
Theorem failed_connection_not_cached pool req (err : string) :
  Server.missing_fields req = false ->
  pool !! Server.pool_key (Server.connection_options req) = None ->
  connect (Server.connection_options req) = Some err ->
  Server.getSnowflakeConnection connect pool (Server.connection_options req)
  = (pool, inl err)
  /\ Server.cortex_agent connect execute pool req
     = (pool, Server.json_error 500 "Internal server error" (JS.Str err))
  /\ App.sendToCortexAgent_settled
       (System.delivered
          (Server.cortex_agent connect execute pool req).2)
     = inl (JS.or_ err "API error: 500").
Proof.
  intros Hm Hp Hc.
  assert (Server.getSnowflakeConnection connect pool
            (Server.connection_options req) = (pool, inl err)) as Hget.
  { unfold Server.getSnowflakeConnection. by rewrite Hp, Hc. }
  assert (Server.cortex_agent connect execute pool req
          = (pool, Server.json_error 500 "Internal server error" (JS.Str err)))
    as Hroute.
  { unfold Server.cortex_agent. by rewrite Hm, Hget. }
  split; [ exact Hget | ]. split; [ exact Hroute | ].
  rewrite Hroute. reflexivity.
Qed.



End Route.

Lemma failed_connection_not_cached_witness :
  Server.cortex_agent Cases.refuses (Scenario.answers "fine") ∅
    Scenario.first_request
  = (∅, Server.json_error 500 "Internal server error"
          (JS.Str "Incorrect username or password was specified.")).
Proof.
  pose proof (failed_connection_not_cached Cases.refuses
                (Scenario.answers "fine") ∅ Scenario.first_request
                "Incorrect username or password was specified."
                eq_refl eq_refl eq_refl)
    as (_ & Hroute & _).
  exact Hroute.
Defined.


(** ** Overlapping requests *)

(** X14 — of two calls of [getSnowflakeConnection] for the same account
    and username, neither of them in the pool, the first decides the
    connection only when its [connect] has called back before the second
    call: the second call then finds the connection of the first, made with
    the options of the first.  When the second call comes before that
    callback, both calls miss the pool and both connect, and each callback
    stores its own connection over the entry: the connection left in the
    pool is that of the callback that ran last, and that of the other call
    when one of the two connections fails. *)
Theorem last_callback_decides_connection (st : Overlap.State)
    (first second : Snowflake.Config) (err : string) :
  Server.pool_key second = Server.pool_key first ->
  Overlap.pool st !! Server.pool_key first = None ->
  let n := length (Overlap.connecting st) in
  let key := Server.pool_key first in
  let of_first := {| Snowflake.options := first |} in
  let of_second := {| Snowflake.options := second |} in
  (let served := Overlap.callback n None (Overlap.call first st).1 in
   Overlap.call second served = (served, Some of_first))
  /\ (let both := (Overlap.call second (Overlap.call first st).1).1 in
      (Overlap.call first st).2 = None
      /\ (Overlap.call second (Overlap.call first st).1).2 = None
      /\ Overlap.pool both = Overlap.pool st
      /\ Overlap.connecting both = Overlap.connecting st ++ [first; second]
      /\ Overlap.pool (Overlap.callback n None both) !! key = Some of_first
      /\ Overlap.pool (Overlap.callback n None (Overlap.callback n None both))
           !! key
         = Some of_second
      /\ Overlap.pool
           (Overlap.callback n None (Overlap.callback (S n) None both))
           !! key
         = Some of_first
      /\ Overlap.pool
           (Overlap.callback n (Some err) (Overlap.callback n None both))
           !! key
         = Some of_first
      /\ Overlap.pool
           (Overlap.callback n None (Overlap.callback n (Some err) both))
           !! key
         = Some of_second).
Proof.
  intros Hkey Hfree n key of_first of_second.
  rewrite (call_miss first st Hfree). cbn [fst snd].
  assert (forall (l : list Snowflake.Config) (x : Snowflake.Config)
                 (rest : list Snowflake.Config),
            (l ++ x :: rest) !! length l = Some x) as Hmid
    by (intros; by apply list_lookup_middle).
  split.
  - cbn zeta. unfold Overlap.callback. cbn [Overlap.connecting Overlap.pool].
    subst n. rewrite (Hmid _ first []).
    apply call_hit. cbn [Overlap.pool]. rewrite Hkey.
    apply lookup_insert_eq.
  - cbn zeta.
    rewrite call_miss by (cbn [Overlap.pool]; by rewrite Hkey).
    cbn [fst snd Overlap.pool Overlap.connecting]. rewrite <- app_assoc.
    cbn [app].
    split; [ done | ]. split; [ done | ]. split; [ done | ].
    split; [ done | ].
    unfold Overlap.callback. cbn [Overlap.connecting Overlap.pool]. subst n.
    rewrite (Hmid _ first [second]).
    rewrite (delete_middle (Overlap.connecting st) [second] first).
    cbn [Overlap.connecting Overlap.pool].
    rewrite (Hmid _ second []).
    cbn [Overlap.connecting Overlap.pool].
    assert ((Overlap.connecting st ++ [first; second])
              !! S (length (Overlap.connecting st)) = Some second) as Hsnd.
    { rewrite lookup_app_r by lia.
      replace (S (length (Overlap.connecting st))
               - length (Overlap.connecting st))%nat with 1%nat by lia.
      done. }
    rewrite Hsnd. cbn [Overlap.connecting Overlap.pool].
    assert (delete (S (length (Overlap.connecting st)))
              (Overlap.connecting st ++ [first; second])
            = Overlap.connecting st ++ [first]) as Hdel.
    { change [first; second] with ([first] ++ [second]).
      rewrite app_assoc.
      replace (S (length (Overlap.connecting st)))
        with (length (Overlap.connecting st ++ [first]))
        by (rewrite length_app; simpl; lia).
      rewrite delete_middle. by rewrite app_nil_r. }
    rewrite Hdel, (Hmid _ first []).
    cbn [Overlap.connecting Overlap.pool].
    subst key. rewrite Hkey.
    split; [ apply lookup_insert_eq | ].
    split; [ apply lookup_insert_eq | ].
    split; [ apply lookup_insert_eq | ].
    split; apply lookup_insert_eq.
Qed.

Lemma last_callback_decides_connection_witness :
  let first := Server.connection_options Scenario.first_request in
  let second := Server.connection_options Scenario.guess in
  let both :=
    Overlap.run [Overlap.Call first; Overlap.Call second] Overlap.started in
  Overlap.pool (Overlap.run [Overlap.Callback 0 None; Overlap.Callback 0 None]
                  both)
    !! "acme-ann"
  = Some {| Snowflake.options := second |}.
Proof.
  cbv zeta.
  pose proof (last_callback_decides_connection Overlap.started
                (Server.connection_options Scenario.first_request)
                (Server.connection_options Scenario.guess) "unused"
                eq_refl eq_refl)
    as (_ & _ & _ & _ & _ & _ & Hlast & _).
  exact Hlast.
Defined.

(** X16 — whatever calls and callbacks of [getSnowflakeConnection] take
    place, in whatever order, a pool whose entries sit under the key of
    their own options keeps that property and never loses a key; it grows
    by at most one entry per callback; and an entry whose key no pending
    [connect] has is still there, unchanged.  An entry can be replaced only
    by the callback of a [connect] that was started for its key before the
    entry was stored. *)
Theorem pool_growth (steps : list Overlap.Step) (st : Overlap.State) :
  Cases.keyed (Overlap.pool st) ->
  let st' := Overlap.run steps st in
  Cases.keyed (Overlap.pool st')
  /\ (forall key : string,
        is_Some (Overlap.pool st !! key) ->
        is_Some (Overlap.pool st' !! key))
  /\ (size (Overlap.pool st')
      <= size (Overlap.pool st) + Overlap.callbacks steps)%nat
  /\ (forall (key : string) (cached : Snowflake.Connection),
        Overlap.pool st !! key = Some cached ->
        Overlap.none_pending key st ->
        Overlap.pool st' !! key = Some cached).
Proof.
  intros Hkeyed st'. subst st'.
  split; [ | split; [ | split ] ].
  - unfold Overlap.run. revert st Hkeyed.
    induction steps as [| s steps IH]; intros st Hkeyed; [ done | ].
    simpl. apply IH.
    destruct (step_pool s st) as [-> | (i & config & _ & _ & ->)]; [ done | ].
    intros key connection Hlook.
    destruct (decide (Server.pool_key config = key)) as [<- | Hne].
    + rewrite lookup_insert_eq in Hlook. by injection Hlook as <-.
    + rewrite lookup_insert_ne in Hlook by done. by apply Hkeyed.
  - intros key. apply run_keeps_key.
  - clear Hkeyed. unfold Overlap.run. revert st.
    induction steps as [| s steps IH]; intros st; [ simpl; lia | ].
    simpl. specialize (IH (Overlap.step s st)).
    assert (size (Overlap.pool (Overlap.step s st))
            <= size (Overlap.pool st)
               + match s with
                 | Overlap.Call _ => 0
                 | Overlap.Callback _ _ => 1
                 end)%nat as Hstep.
    { destruct (step_pool s st) as [-> | (i & config & -> & _ & ->)];
        [ lia | ].
      destruct (Overlap.pool st !! Server.pool_key config) eqn:Hp.
      - rewrite map_size_insert_Some by done. lia.
      - rewrite map_size_insert_None by done. lia. }
    destruct s; simpl in *; lia.
  - intros key cached. apply run_keeps_entry.
Qed.

Lemma pool_growth_witness :
  let steps :=
    [Overlap.Call (Server.connection_options Scenario.first_request);
     Overlap.Call (Server.connection_options Scenario.guess);
     Overlap.Callback 0 None; Overlap.Callback 0 None] in
  (size (Overlap.pool (Overlap.run steps Overlap.started)) <= 0 + 2)%nat.
Proof.
  cbv zeta.
  destruct (pool_growth
              [Overlap.Call (Server.connection_options Scenario.first_request);
               Overlap.Call (Server.connection_options Scenario.guess);
               Overlap.Callback 0 None; Overlap.Callback 0 None]
              Overlap.started)
    as (_ & _ & Hsize & _).
  - intros key connection Hlook. unfold Overlap.started in Hlook.
    cbn [Overlap.pool] in Hlook. rewrite lookup_empty in Hlook. discriminate.
  - exact Hsize.
Defined.

(** ** The route that lists models and agents *)

Section Listing.

Variable connect : Snowflake.Config -> option string.
Variable execute :
  Snowflake.Connection -> string -> list string ->
  string + option (list Snowflake.Row).
Variable show :
  Snowflake.Connection -> string -> string + option (list Show.Row).

Implicit Types (pool : gmap string Snowflake.Connection) (req : Api.Request).

Lemma pushed_rows (outcome : string + option (list Show.Row))
    (entry : Show.Row -> Agents.Agent) :
  Agents.pushed outcome entry = entry <$> Cases.rows outcome.
Proof. by destruct outcome as [err | [rows |]]. Qed.

(** X17 — for a request whose body was parsed and [SHOW] rows that are
    objects, the listing route answers with success, the agents and their
    number.  The agents are the eleven predefined models in their fixed
    order, followed, when the request carries an account, a username and a
    password and [getSnowflakeConnection] gives a connection, by one entry
    for each row that [SHOW CORTEX SEARCH SERVICES] returned over that
    connection, in order, and then one entry for each row that the
    [SHOW USER FUNCTIONS] statement of the requested schema returned; a
    statement that fails contributes no entry and does not prevent the
    other.  Without credentials the route does not connect, and when the
    connection fails the list is that of the predefined models.  Without a
    parsed body the outer [catch] answers 500 with the message of the error
    and the pool is left alone. *)
Theorem list_agents_reply (thrown : string) pool req :
  let credentials :=
    JS.truthy_str (Api.account req) && JS.truthy_str (Api.username req)
      && JS.truthy_str (Api.password req) in
  let got :=
    Server.getSnowflakeConnection connect pool (Server.connection_options req) in
  let found :=
    if credentials
    then match got.2 with
         | inr connection =>
             (Agents.search_service
                <$> Cases.rows (show connection Agents.services_statement))
               ++ (Agents.custom_function
                     <$> Cases.rows
                           (show connection (Agents.functions_statement req)))
         | inl _ => []
         end
    else [] in
  Agents.route connect show thrown pool None
  = (pool, Agents.Failed 500 thrown)
  /\ Agents.route connect show thrown pool (Some req)
     = (if credentials then got.1 else pool,
        Agents.Listed
          {| Agents.success := true;
             Agents.agents := Agents.predefinedModels ++ found;
             Agents.count := 11 + length found |})
  /\ Agents.route connect show thrown pool (Some req)
     = ((Agents.list_agents connect show pool req).1,
        Agents.Listed (Agents.list_agents connect show pool req).2)
  /\ take 11 (Agents.agents (Agents.list_agents connect show pool req).2)
     = Agents.predefinedModels.
Proof.
  intros credentials got found.
  split; [ done | ].
  assert (Agents.list_agents connect show pool req
          = (if credentials then got.1 else pool,
             {| Agents.success := true;
                Agents.agents := Agents.predefinedModels ++ found;
                Agents.count := 11 + length found |})) as Hlist.
  { subst found. unfold Agents.list_agents. fold credentials. fold got.
    destruct credentials; [ | done ].
    destruct got as [pool' [err | connection]]; [ done | ].
    cbn [fst snd]. rewrite !pushed_rows. unfold Agents.listing.
    by rewrite length_app. }
  unfold Agents.route. rewrite Hlist. cbn [fst snd Agents.agents].
  split; [ done | ]. split; [ done | ].
  by rewrite (take_app_length' Agents.predefinedModels).
Qed.

(** X18 — without an account, a username or a password the listing route
    does not connect and leaves the pool alone; and a connection that fails
    is silent: the reply is then the same list of predefined models, with
    nothing that tells the failure from missing credentials. *)
Theorem list_agents_without_connection pool req :
  (JS.truthy_str (Api.account req) && JS.truthy_str (Api.username req)
     && JS.truthy_str (Api.password req) = false ->
   Agents.list_agents connect show pool req
   = (pool, Agents.listing Agents.predefinedModels))
  /\ (forall err : string,
        JS.truthy_str (Api.account req) && JS.truthy_str (Api.username req)
          && JS.truthy_str (Api.password req) = true ->
        pool !! Server.pool_key (Server.connection_options req) = None ->
        connect (Server.connection_options req) = Some err ->
        Agents.list_agents connect show pool req
        = (pool, Agents.listing Agents.predefinedModels)).
Proof.
  split.
  - intros Hc. unfold Agents.list_agents. by rewrite Hc.
  - intros err Hc Hp He. unfold Agents.list_agents. rewrite Hc.
    unfold Server.getSnowflakeConnection. by rewrite Hp, He.
Qed.

(** X19 — the listing route and the completion route share the pool.  A
    listing that connects stores its connection, and a later completion for
    the same account and username is run over it, with the password and the
    selectors of the listing; and a listing for an account and a username
    that are in the pool is answered over the stored connection, whatever
    (non-empty) password it carries. *)
Theorem list_agents_shares_pool pool req (later : Api.Request) :
  Api.account later = Api.account req ->
  Api.username later = Api.username req ->
  JS.truthy_str (Api.account req) && JS.truthy_str (Api.username req)
    && JS.truthy_str (Api.password req) = true ->
  (pool !! Server.pool_key (Server.connection_options req) = None ->
   connect (Server.connection_options req) = None ->
   Server.missing_fields later = false ->
   let pool1 := (Agents.list_agents connect show pool req).1 in
   Server.cortex_agent connect execute pool1 later
   = (pool1,
      Server.complete execute
        {| Snowflake.options := Server.connection_options req |} later))
  /\ (forall cached : Snowflake.Connection,
        pool !! Server.pool_key (Server.connection_options req) = Some cached ->
        Agents.list_agents connect show pool req
        = (pool,
           Agents.listing
             (Agents.predefinedModels
                ++ Agents.pushed (show cached Agents.services_statement)
                     Agents.search_service
                ++ Agents.pushed
                     (show cached (Agents.functions_statement req))
                     Agents.custom_function))).
Proof.
  intros Ha Hu Hc. split.
  - intros Hp He Hm pool1.
    assert (pool1
            = <[Server.pool_key (Server.connection_options req)
                := {| Snowflake.options := Server.connection_options req |}]>
                pool) as Hpool1.
    { subst pool1. unfold Agents.list_agents. rewrite Hc.
      unfold Server.getSnowflakeConnection. by rewrite Hp, He. }
    unfold Server.cortex_agent. rewrite Hm.
    rewrite (getSnowflakeConnection_hit connect pool1
               (Server.connection_options later)
               {| Snowflake.options := Server.connection_options req |});
      [ done | ].
    rewrite Hpool1.
    replace (Server.pool_key (Server.connection_options later))
      with (Server.pool_key (Server.connection_options req)).
    + apply lookup_insert_eq.
    + unfold Server.pool_key. simpl. by rewrite Ha, Hu.
  - intros cached Hp. unfold Agents.list_agents. rewrite Hc.
    by rewrite (getSnowflakeConnection_hit connect pool _ cached Hp).
Qed.

End Listing.

Lemma list_agents_without_connection_witness :
  Agents.list_agents Cases.refuses Cases.one_service ∅ Scenario.first_request
  = (∅, Agents.listing Agents.predefinedModels).
Proof.
  destruct (list_agents_without_connection Cases.refuses Cases.one_service ∅
              Scenario.first_request) as [_ Hsilent].
  apply (Hsilent "Incorrect username or password was specified.");
    reflexivity.
Defined.

Lemma list_agents_shares_pool_witness :
  (Server.cortex_agent Scenario.accepts Scenario.reveals
     (Agents.list_agents Scenario.accepts Cases.one_service ∅
        Scenario.first_request).1
     Scenario.guess).2
  = Server.json_success (JS.Str "secret").
Proof.
  destruct (list_agents_shares_pool Scenario.accepts Scenario.reveals
              Cases.one_service ∅ Scenario.first_request Scenario.guess
              eq_refl eq_refl eq_refl) as [Hlater _].
  exact (f_equal snd (Hlater eq_refl eq_refl eq_refl)).
Defined.

Lemma cortex_agent_replies_witness :
  Server.cortex_agent Scenario.accepts (Scenario.answers "fine") ∅
    (Cases.request_of "acme" "ann" "" "mistral-large" "hi")
  = (∅, Server.json_error 400 "Missing required fields" JS.Undefined).
Proof.
  destruct (cortex_agent_replies Scenario.accepts (Scenario.answers "fine") ∅
              (Cases.request_of "acme" "ann" "" "mistral-large" "hi"))
    as (_ & Hmissing & _).
  apply Hmissing. reflexivity.
Defined.

Lemma list_agents_reply_witness :
  Agents.route Scenario.accepts Cases.one_service "unused" ∅
    (Some Scenario.first_request)
  = ({[ "acme-ann" := Scenario.stored ]},
     Agents.Listed
       {| Agents.success := true;
          Agents.agents :=
            Agents.predefinedModels
              ++ [{| Agents.name := JS.Str "DOCS";
                     Agents.type := "search_service";
                     Agents.provider := "Custom";
                     Agents.description :=
                       "Cortex Search Service in CORTEX_DB.AGENTS";
                     Agents.size := "Custom";
                     Agents.recommended := false |}];
          Agents.count := 12 |}).
Proof.
  pose proof (list_agents_reply Scenario.accepts Cases.one_service "unused" ∅
                Scenario.first_request)
    as (_ & Hreply & _).
  rewrite Hreply. vm_compute. reflexivity.
Defined.
